(** * StudyBuddy AI: the React front end (App.jsx), embedded in Rocq

    The development follows [frontend/src/App.jsx]:
    - JavaScript values the component manipulates (strings as sequences of
      UTF-16 code units, numbers, JSON request bodies);
    - the pure helpers of the components ([FileUpload], [ChatMessage], the
      recommendation popup);
    - the state of [App] (one field per [useState]) and its handlers, each
      asynchronous handler split at its [await fetch] into the part that
      runs before the request is issued and the continuation that runs when
      the request settles;
    - an event-driven machine over that state, with the requests it emits. *)

From Stdlib Require Import QArith Qround.
From stdpp Require Import gmap list strings.

Local Open Scope string_scope.
Local Open Scope list_scope.
#[local] Set Warnings "-register-all".

(** ** Strings *)

(** A JavaScript string is a sequence of UTF-16 code units; [length],
    [substring], [split] and [trim] all count and inspect code units. *)
Abbreviation jsstring := (list N).

(** Source literals are written as UTF-8 text and decoded to code units. *)
Fixpoint utf8_points (bs : list N) : list N :=
  match bs with
  | [] => []
  | b0 :: r0 =>
    if (b0 <? 128)%N then b0 :: utf8_points r0
    else match r0 with
    | [] => []
    | b1 :: r1 =>
      if (b0 <? 224)%N then ((b0 mod 32) * 64 + b1 mod 64)%N :: utf8_points r1
      else match r1 with
      | [] => []
      | b2 :: r2 =>
        if (b0 <? 240)%N
        then ((b0 mod 16) * 4096 + (b1 mod 64) * 64 + b2 mod 64)%N :: utf8_points r2
        else match r2 with
        | [] => []
        | b3 :: r3 =>
          ((b0 mod 8) * 262144 + (b1 mod 64) * 4096 + (b2 mod 64) * 64 + b3 mod 64)%N
            :: utf8_points r3
        end
      end
    end
  end.

Definition utf16_units (cp : N) : list N :=
  if (cp <? 65536)%N then [cp]
  else let v := (cp - 65536)%N in [(55296 + v / 1024)%N; (56320 + v mod 1024)%N].

Definition js (s : string) : jsstring :=
  utf8_points (map Ascii.N_of_ascii (String.list_ascii_of_string s)) ≫= utf16_units.

(** [s.length] *)
Definition js_length (s : jsstring) : nat := length s.

(** [s.substring(0, n)] for a non-negative [n]. *)
Definition substring0 (n : nat) (s : jsstring) : jsstring := take n s.

(** A string is truthy when it is not empty. *)
Definition truthy (s : jsstring) : bool :=
  match s with [] => false | _ => true end.

(** [a || b] on strings. *)
Definition or_else (a b : jsstring) : jsstring := if truthy a then a else b.

(** [a || b] when [a] may be [undefined] or [null]. *)
Definition opt_or_else (a : option jsstring) (b : jsstring) : jsstring :=
  match a with
  | Some s => or_else s b
  | None => b
  end.

(** ECMAScript WhiteSpace and LineTerminator code units, as [trim] strips. *)
Definition is_whitespace (c : N) : bool :=
  bool_decide (c ∈ [0x9; 0xA; 0xB; 0xC; 0xD; 0x20; 0xA0; 0x1680; 0x2028;
                    0x2029; 0x202F; 0x205F; 0x3000; 0xFEFF]%N)
  || ((0x2000 <=? c)%N && (c <=? 0x200A)%N).

Fixpoint trimStart (s : jsstring) : jsstring :=
  match s with
  | [] => []
  | c :: r => if is_whitespace c then trimStart r else s
  end.

Definition trimEnd (s : jsstring) : jsstring := reverse (trimStart (reverse s)).

Definition trim (s : jsstring) : jsstring := trimEnd (trimStart s).

(** [toLowerCase] on the code units that matter to the extension test:
    the ASCII capitals. No other code point lower-cases to one of the
    letters of [pdf], [pptx], [docx], [txt], so membership in that list
    is decided by this mapping; other code units are left as they are,
    where the real function also lower-cases the other cased letters:
    the result stands for the real one only in that membership test. *)
Definition lower_unit (c : N) : N :=
  if ((65 <=? c)%N && (c <=? 90)%N) then (c + 32)%N else c.

Definition toLowerCase (s : jsstring) : jsstring := map lower_unit s.

(** [s.split(sep)] for a one-unit separator: never the empty array. *)
Fixpoint split (sep : N) (s : jsstring) : list jsstring :=
  match s with
  | [] => [[]]
  | c :: r =>
    if bool_decide (c = sep) then [] :: split sep r
    else match split sep r with
         | seg :: segs => (c :: seg) :: segs
         | [] => [[c]]
         end
  end.

(** [arr.join(sep)] *)
Fixpoint join (sep : jsstring) (l : list jsstring) : jsstring :=
  match l with
  | [] => []
  | [s] => s
  | s :: rest => s ++ sep ++ join sep rest
  end.

(** [arr.slice(-n)]: the last [n] elements, all of them when there are
    fewer. *)
Definition slice_last {A} (n : nat) (l : list A) : list A :=
  drop (length l - n) l.

(** ** Numbers *)

(** A JavaScript number: a finite value (rationals stand for the finite
    doubles), the two infinities, or NaN. *)
Inductive jsnum : Type :=
| Finite (q : Q)
| PosInf
| NegInf
| NaN.

Definition js_sign (x : jsnum) : option comparison :=
  match x with
  | Finite q => Some (q ?= 0)%Q
  | PosInf => Some Gt
  | NegInf => Some Lt
  | NaN => None
  end.

(** [a * b]. The product of two finite doubles is the exact product
    rounded to a double, possibly to an infinity; [fl] is that rounding. *)
Definition js_mul (fl : Q -> jsnum) (a b : jsnum) : jsnum :=
  match a, b with
  | Finite p, Finite q => fl (p * q)%Q
  | _, _ =>
    match js_sign a, js_sign b with
    | Some Eq, _ | _, Some Eq => NaN
    | Some Gt, Some Gt | Some Lt, Some Lt => PosInf
    | Some Gt, Some Lt | Some Lt, Some Gt => NegInf
    | None, _ | _, None => NaN
    end
  end.

(** [Math.round(x)]: the nearest integer, ties towards +infinity. *)
Definition Math_round (x : jsnum) : jsnum :=
  match x with
  | Finite q => Finite (inject_Z (Qfloor (q + (1 # 2))))
  | other => other
  end.

(** [Math.min(a, b)] *)
Definition Math_min (a b : jsnum) : jsnum :=
  match a, b with
  | NaN, _ | _, NaN => NaN
  | NegInf, _ | _, NegInf => NegInf
  | PosInf, y => y
  | x, PosInf => x
  | Finite p, Finite q => if Qle_bool p q then a else b
  end.

(** [a > b] *)
Definition js_gt (a b : jsnum) : bool :=
  match a, b with
  | NaN, _ | _, NaN => false
  | PosInf, PosInf => false
  | PosInf, _ => true
  | _, PosInf => false
  | NegInf, _ => false
  | _, NegInf => true
  | Finite p, Finite q => negb (Qle_bool p q)
  end.

Definition hundred : jsnum := Finite 100.

(** ** Data exchanged with the back end *)

Record Source : Type := {
  document_id : jsstring;
  document_name : jsstring;
  relevance_score : jsnum
}.

Record Message : Type := {
  role : jsstring;
  content : jsstring;
  sources : option (list Source);
  imageBase64 : option jsstring
}.

Record Document : Type := {
  id : jsstring;
  filename : jsstring;
  file_type : jsstring;
  chunk_count : N
}.

Record File : Type := {
  name : jsstring;
  payload : list N
}.

Record Topic : Type := {
  type : jsstring;
  title : jsstring;
  description : jsstring;
  prompt : jsstring
}.

Record Toast : Type := {
  toast_id : Z;
  toast_message : jsstring;
  toast_type : jsstring
}.

Record ImageEntry : Type := {
  entry_id : Z;
  entry_prompt : jsstring;
  entry_imageBase64 : option jsstring;
  createdAt : jsstring
}.

#[global] Instance Document_eq_dec : EqDecision Document.
Proof. solve_decision. Defined.

(** JSON values, as far as the request bodies use them. *)
Inductive json : Type :=
| JStr (s : jsstring)
| JArr (items : list json)
| JObj (fields : list (string * json)).

Inductive Body : Type :=
| NoBody
| JsonBody (j : json)
| FormData (file : File).

(** One call of [fetch]. *)
Record Request : Type := {
  url : jsstring;
  method : string;
  headers : list (string * string);
  body : Body
}.

Definition API_BASE : jsstring := js "http://localhost:8001".

Definition json_headers : list (string * string) :=
  [("Content-Type", "application/json")].

(** How a [fetch] and the [res.json()] after it end: an exception
    anywhere in the [try] block, a response with [res.ok], or one
    without. *)
Inductive Fetched (A E : Type) : Type :=
| Rejected
| Fulfilled (data : A)
| NotOk (error : E).
Arguments Rejected {A E}.
Arguments Fulfilled {A E} data.
Arguments NotOk {A E} error.

Record ErrorData : Type := { detail : option jsstring }.

Record AskData : Type := {
  answer : jsstring;
  ask_sources : option (list Source)
}.

Record VisualizationData : Type := {
  viz_description : option jsstring;
  image_base64 : option jsstring
}.

Record RecommendationData : Type := { topics : option (list Topic) }.

(** The readings of the clock one continuation makes. *)
Record Clock : Type := {
  date_now : Z;
  iso_now : jsstring;
  toast_now : Z
}.

(** ** FileUpload *)

Definition DOT : N := 46%N.

Definition supported_types : list jsstring :=
  [js "pdf"; js "pptx"; js "docx"; js "txt"].

(** [file.name.split('.').pop().toLowerCase()]; [pop] of an empty array
    would give [undefined] and the call would throw. *)
Definition ext_of (file_name : jsstring) : option jsstring :=
  toLowerCase <$> last (split DOT file_name).

(** [handleFiles]: the calls of [onUpload], in order. *)
Fixpoint handleFiles (files : list File) : list File :=
  match files with
  | [] => []
  | file :: rest =>
    match ext_of (name file) with
    | Some ext =>
      if bool_decide (ext ∈ supported_types)
      then file :: handleFiles rest
      else handleFiles rest
    | None => handleFiles rest
    end
  end.

(** The final extension of a file name in the usual sense: what follows
    its last dot, when it has a dot. *)
Fixpoint final_extension (file_name : jsstring) : option jsstring :=
  match file_name with
  | [] => None
  | c :: r =>
    match final_extension r with
    | Some e => Some e
    | None => if bool_decide (c = DOT) then Some r else None
    end
  end.

Definition has_supported_extension (f : File) : bool :=
  match final_extension (name f) with
  | Some e => bool_decide (toLowerCase e ∈ supported_types)
  | None => false
  end.

(** ** ChatMessage *)

(** [Math.min(100, Math.round(source.relevance_score * 100))] *)
Definition badge (fl : Q -> jsnum) (source : Source) : jsnum :=
  Math_min hundred (Math_round (js_mul fl (relevance_score source) hundred)).

(** The badges of the sources block, which is rendered when
    [message.sources && message.sources.length > 0]. *)
Definition source_badges (fl : Q -> jsnum) (message : Message) : list jsnum :=
  match sources message with
  | Some srcs => if bool_decide (0 < length srcs) then map (badge fl) srcs else []
  | None => []
  end.

(** [getDisplayName] *)
Definition getDisplayName (displayNames : gmap jsstring jsstring) (source : Source)
  : jsstring :=
  opt_or_else (displayNames !! document_id source) (document_name source).

(** ** The recommendation popup *)

Definition icon_overview : jsstring := js "🌐".
Definition icon_chapter : jsstring := js "📑".
Definition icon_summary : jsstring := js "📝".
Definition icon_qa : jsstring := js "❓".
Definition icon_review : jsstring := js "🎓".
Definition icon_fallback : jsstring := js "🔍".

(** The chain of conditionals in [rec-icon]. *)
Definition rec_icon (rec_type : jsstring) : jsstring :=
  if bool_decide (rec_type = js "overview") then icon_overview
  else if bool_decide (rec_type = js "chapter") then icon_chapter
  else if bool_decide (rec_type = js "summary") then icon_summary
  else if bool_decide (rec_type = js "qa") then icon_qa
  else if bool_decide (rec_type = js "review") then icon_review
  else icon_fallback.

(** ** The state of App: one field per [useState] *)

Record State : Type := {
  inputMode : jsstring;
  documents : list Document;
  messages : list Message;
  inputValue : jsstring;
  isLoading : bool;
  isUploading : bool;
  toasts : list Toast;
  sidebarCollapsed : bool;
  displayNames : gmap jsstring jsstring;
  previewImage : option jsstring;
  imageStyle : jsstring;
  imageHistory : list ImageEntry;
  showRecommendations : bool;
  recommendations : list Topic;
  isLoadingRecommendations : bool
}.

(** The initial values given to [useState]. *)
Definition initial_state : State := {|
  inputMode := js "chat";
  documents := [];
  messages := [];
  inputValue := [];
  isLoading := false;
  isUploading := false;
  toasts := [];
  sidebarCollapsed := false;
  displayNames := ∅;
  previewImage := None;
  imageStyle := js "mindmap";
  imageHistory := [];
  showRecommendations := false;
  recommendations := [];
  isLoadingRecommendations := false
|}.

(** The state setters, each taking the updater [prev => ...]. *)
Definition setInputMode (f : jsstring -> jsstring) (st : State) : State :=
  {| inputMode := f (inputMode st); documents := documents st;
     messages := messages st; inputValue := inputValue st;
     isLoading := isLoading st; isUploading := isUploading st;
     toasts := toasts st; sidebarCollapsed := sidebarCollapsed st;
     displayNames := displayNames st; previewImage := previewImage st;
     imageStyle := imageStyle st; imageHistory := imageHistory st;
     showRecommendations := showRecommendations st;
     recommendations := recommendations st;
     isLoadingRecommendations := isLoadingRecommendations st |}.

Definition setDocuments (f : list Document -> list Document) (st : State) : State :=
  {| inputMode := inputMode st; documents := f (documents st);
     messages := messages st; inputValue := inputValue st;
     isLoading := isLoading st; isUploading := isUploading st;
     toasts := toasts st; sidebarCollapsed := sidebarCollapsed st;
     displayNames := displayNames st; previewImage := previewImage st;
     imageStyle := imageStyle st; imageHistory := imageHistory st;
     showRecommendations := showRecommendations st;
     recommendations := recommendations st;
     isLoadingRecommendations := isLoadingRecommendations st |}.

Definition setMessages (f : list Message -> list Message) (st : State) : State :=
  {| inputMode := inputMode st; documents := documents st;
     messages := f (messages st); inputValue := inputValue st;
     isLoading := isLoading st; isUploading := isUploading st;
     toasts := toasts st; sidebarCollapsed := sidebarCollapsed st;
     displayNames := displayNames st; previewImage := previewImage st;
     imageStyle := imageStyle st; imageHistory := imageHistory st;
     showRecommendations := showRecommendations st;
     recommendations := recommendations st;
     isLoadingRecommendations := isLoadingRecommendations st |}.

Definition setInputValue (f : jsstring -> jsstring) (st : State) : State :=
  {| inputMode := inputMode st; documents := documents st;
     messages := messages st; inputValue := f (inputValue st);
     isLoading := isLoading st; isUploading := isUploading st;
     toasts := toasts st; sidebarCollapsed := sidebarCollapsed st;
     displayNames := displayNames st; previewImage := previewImage st;
     imageStyle := imageStyle st; imageHistory := imageHistory st;
     showRecommendations := showRecommendations st;
     recommendations := recommendations st;
     isLoadingRecommendations := isLoadingRecommendations st |}.

Definition setIsLoading (f : bool -> bool) (st : State) : State :=
  {| inputMode := inputMode st; documents := documents st;
     messages := messages st; inputValue := inputValue st;
     isLoading := f (isLoading st); isUploading := isUploading st;
     toasts := toasts st; sidebarCollapsed := sidebarCollapsed st;
     displayNames := displayNames st; previewImage := previewImage st;
     imageStyle := imageStyle st; imageHistory := imageHistory st;
     showRecommendations := showRecommendations st;
     recommendations := recommendations st;
     isLoadingRecommendations := isLoadingRecommendations st |}.

Definition setIsUploading (f : bool -> bool) (st : State) : State :=
  {| inputMode := inputMode st; documents := documents st;
     messages := messages st; inputValue := inputValue st;
     isLoading := isLoading st; isUploading := f (isUploading st);
     toasts := toasts st; sidebarCollapsed := sidebarCollapsed st;
     displayNames := displayNames st; previewImage := previewImage st;
     imageStyle := imageStyle st; imageHistory := imageHistory st;
     showRecommendations := showRecommendations st;
     recommendations := recommendations st;
     isLoadingRecommendations := isLoadingRecommendations st |}.

Definition setToasts (f : list Toast -> list Toast) (st : State) : State :=
  {| inputMode := inputMode st; documents := documents st;
     messages := messages st; inputValue := inputValue st;
     isLoading := isLoading st; isUploading := isUploading st;
     toasts := f (toasts st); sidebarCollapsed := sidebarCollapsed st;
     displayNames := displayNames st; previewImage := previewImage st;
     imageStyle := imageStyle st; imageHistory := imageHistory st;
     showRecommendations := showRecommendations st;
     recommendations := recommendations st;
     isLoadingRecommendations := isLoadingRecommendations st |}.

Definition setSidebarCollapsed (f : bool -> bool) (st : State) : State :=
  {| inputMode := inputMode st; documents := documents st;
     messages := messages st; inputValue := inputValue st;
     isLoading := isLoading st; isUploading := isUploading st;
     toasts := toasts st; sidebarCollapsed := f (sidebarCollapsed st);
     displayNames := displayNames st; previewImage := previewImage st;
     imageStyle := imageStyle st; imageHistory := imageHistory st;
     showRecommendations := showRecommendations st;
     recommendations := recommendations st;
     isLoadingRecommendations := isLoadingRecommendations st |}.

Definition setDisplayNames (f : gmap jsstring jsstring -> gmap jsstring jsstring)
    (st : State) : State :=
  {| inputMode := inputMode st; documents := documents st;
     messages := messages st; inputValue := inputValue st;
     isLoading := isLoading st; isUploading := isUploading st;
     toasts := toasts st; sidebarCollapsed := sidebarCollapsed st;
     displayNames := f (displayNames st); previewImage := previewImage st;
     imageStyle := imageStyle st; imageHistory := imageHistory st;
     showRecommendations := showRecommendations st;
     recommendations := recommendations st;
     isLoadingRecommendations := isLoadingRecommendations st |}.

Definition setPreviewImage (f : option jsstring -> option jsstring) (st : State)
  : State :=
  {| inputMode := inputMode st; documents := documents st;
     messages := messages st; inputValue := inputValue st;
     isLoading := isLoading st; isUploading := isUploading st;
     toasts := toasts st; sidebarCollapsed := sidebarCollapsed st;
     displayNames := displayNames st; previewImage := f (previewImage st);
     imageStyle := imageStyle st; imageHistory := imageHistory st;
     showRecommendations := showRecommendations st;
     recommendations := recommendations st;
     isLoadingRecommendations := isLoadingRecommendations st |}.

Definition setImageStyle (f : jsstring -> jsstring) (st : State) : State :=
  {| inputMode := inputMode st; documents := documents st;
     messages := messages st; inputValue := inputValue st;
     isLoading := isLoading st; isUploading := isUploading st;
     toasts := toasts st; sidebarCollapsed := sidebarCollapsed st;
     displayNames := displayNames st; previewImage := previewImage st;
     imageStyle := f (imageStyle st); imageHistory := imageHistory st;
     showRecommendations := showRecommendations st;
     recommendations := recommendations st;
     isLoadingRecommendations := isLoadingRecommendations st |}.

Definition setImageHistory (f : list ImageEntry -> list ImageEntry) (st : State)
  : State :=
  {| inputMode := inputMode st; documents := documents st;
     messages := messages st; inputValue := inputValue st;
     isLoading := isLoading st; isUploading := isUploading st;
     toasts := toasts st; sidebarCollapsed := sidebarCollapsed st;
     displayNames := displayNames st; previewImage := previewImage st;
     imageStyle := imageStyle st; imageHistory := f (imageHistory st);
     showRecommendations := showRecommendations st;
     recommendations := recommendations st;
     isLoadingRecommendations := isLoadingRecommendations st |}.

Definition setShowRecommendations (f : bool -> bool) (st : State) : State :=
  {| inputMode := inputMode st; documents := documents st;
     messages := messages st; inputValue := inputValue st;
     isLoading := isLoading st; isUploading := isUploading st;
     toasts := toasts st; sidebarCollapsed := sidebarCollapsed st;
     displayNames := displayNames st; previewImage := previewImage st;
     imageStyle := imageStyle st; imageHistory := imageHistory st;
     showRecommendations := f (showRecommendations st);
     recommendations := recommendations st;
     isLoadingRecommendations := isLoadingRecommendations st |}.

Definition setRecommendations (f : list Topic -> list Topic) (st : State) : State :=
  {| inputMode := inputMode st; documents := documents st;
     messages := messages st; inputValue := inputValue st;
     isLoading := isLoading st; isUploading := isUploading st;
     toasts := toasts st; sidebarCollapsed := sidebarCollapsed st;
     displayNames := displayNames st; previewImage := previewImage st;
     imageStyle := imageStyle st; imageHistory := imageHistory st;
     showRecommendations := showRecommendations st;
     recommendations := f (recommendations st);
     isLoadingRecommendations := isLoadingRecommendations st |}.

Definition setIsLoadingRecommendations (f : bool -> bool) (st : State) : State :=
  {| inputMode := inputMode st; documents := documents st;
     messages := messages st; inputValue := inputValue st;
     isLoading := isLoading st; isUploading := isUploading st;
     toasts := toasts st; sidebarCollapsed := sidebarCollapsed st;
     displayNames := displayNames st; previewImage := previewImage st;
     imageStyle := imageStyle st; imageHistory := imageHistory st;
     showRecommendations := showRecommendations st;
     recommendations := recommendations st;
     isLoadingRecommendations := f (isLoadingRecommendations st) |}.

(** [setX(v)] with a plain value. *)
Definition to {A} (v : A) : A -> A := fun _ => v.

Notation "x |> f" := (f x) (at level 45, left associativity, only parsing).

(** ** The handlers of App

    An asynchronous handler is given in two parts: what it does up to its
    [await fetch] (the new state and the requests issued, each with the
    continuation waiting for it), and what the continuation does once
    the request has settled. *)

(** A continuation waiting for a response, with the variables its closure
    captured. *)
Inductive Pending : Type :=
| AwaitDocuments
| AwaitUpload (file : File)
| AwaitDelete (docId : jsstring)
| AwaitAsk
| AwaitVisualization (prompt : jsstring)
| AwaitRecommendations.

Definition Issued : Type := list (Request * Pending).

Definition showToast (message type : jsstring) (now : Z) : State -> State :=
  setToasts (fun prev =>
    prev ++ [{| toast_id := now; toast_message := message; toast_type := type |}]).

Definition removeToast (tid : Z) : State -> State :=
  setToasts (filter (fun t => toast_id t ≠ tid)).

(** *** fetchDocuments *)

Definition fetchDocuments : Issued :=
  [({| url := API_BASE ++ js "/upload/"; method := "GET"; headers := [];
       body := NoBody |}, AwaitDocuments)].

Definition fetchDocuments_settled (res : Fetched (list Document) unit) (st : State)
  : State :=
  match res with
  | Fulfilled docs => st |> setDocuments (to docs)
  | NotOk _ | Rejected => st
  end.

(** *** handleUpload *)

Definition handleUpload (file : File) (st : State) : State * Issued :=
  (st |> setIsUploading (to true),
   [({| url := API_BASE ++ js "/upload/"; method := "POST"; headers := [];
        body := FormData file |}, AwaitUpload file)]).

Definition handleUpload_settled (file : File) (res : Fetched Document ErrorData)
    (now : Z) (st : State) : State :=
  (match res with
   | Fulfilled doc =>
     st |> setDocuments (fun prev => prev ++ [doc])
        |> setDisplayNames (fun prev => <[id doc := name file]> prev)
        |> showToast (js "文档 " ++ [34%N] ++ name file ++ [34%N] ++ js " 上传成功！")
             (js "success") now
   | NotOk error =>
     st |> showToast (opt_or_else (detail error) (js "上传失败")) (js "error") now
   | Rejected =>
     st |> showToast (js "上传失败，请检查网络连接") (js "error") now
   end) |> setIsUploading (to false).

(** *** handleDelete *)

Definition handleDelete (docId : jsstring) : Issued :=
  [({| url := API_BASE ++ js "/upload/" ++ docId; method := "DELETE";
       headers := []; body := NoBody |}, AwaitDelete docId)].

Definition handleDelete_settled (docId : jsstring) (res : Fetched unit unit)
    (now : Z) (st : State) : State :=
  match res with
  | Fulfilled _ =>
    st |> setDocuments (filter (fun d => id d ≠ docId))
       |> setDisplayNames (fun prev => delete docId prev)
       |> showToast (js "文档已删除") (js "success") now
  | NotOk _ => st
  | Rejected => st |> showToast (js "删除失败") (js "error") now
  end.

(** *** handleRename *)

Definition handleRename (docId newName : jsstring) (now : Z) (st : State) : State :=
  st |> setDisplayNames (fun prev => <[docId := newName]> prev)
     |> showToast (js "名称已更新") (js "success") now.

(** [saveEdit] of DocumentList, as far as it reaches App. *)
Definition saveEdit (docId editValue : jsstring) (now : Z) (st : State) : State :=
  if truthy (trim editValue) then handleRename docId (trim editValue) now st else st.

(** *** handleSend *)

(** [!inputValue.trim() || isLoading]: the guard of [handleSend] and the
    [disabled] attribute of the send button. *)
Definition send_blocked (st : State) : bool :=
  negb (truthy (trim (inputValue st))) || isLoading st.

Definition send_button_disabled (st : State) : bool :=
  negb (truthy (trim (inputValue st))) || isLoading st.

Definition plain_message (r c : jsstring) : Message :=
  {| role := r; content := c; sources := None; imageBase64 := None |}.

Definition handleSend (st : State) : State * Issued :=
  if send_blocked st then (st, [])
  else
    let userMessage := plain_message (js "user") (inputValue st) in
    (st |> setMessages (fun prev => prev ++ [userMessage])
        |> setInputValue (to [])
        |> setIsLoading (to true),
     [({| url := API_BASE ++ js "/qa/ask"; method := "POST";
          headers := json_headers;
          body := JsonBody (JObj [("question", JStr (inputValue st))]) |},
       AwaitAsk)]).

(** The message each branch of the continuation appends. *)
Definition ask_reply_message (res : Fetched AskData ErrorData) : Message :=
  match res with
  | Fulfilled data =>
    {| role := js "assistant"; content := answer data;
       sources := ask_sources data; imageBase64 := None |}
  | NotOk error =>
    plain_message (js "assistant")
      (js "抱歉，处理请求时出错：" ++ opt_or_else (detail error) (js "未知错误"))
  | Rejected =>
    plain_message (js "assistant") (js "连接服务器失败，请检查后端是否启动")
  end.

Definition handleSend_settled (res : Fetched AskData ErrorData) (st : State) : State :=
  st |> setMessages (fun prev => prev ++ [ask_reply_message res])
     |> setIsLoading (to false).

(** *** handleGenerateImage *)

Definition opt_truthy (a : option jsstring) : bool :=
  match a with Some s => truthy s | None => false end.

Definition NEWLINE : jsstring := [10%N].

(** [`${m.role}: ${m.content}`] *)
Definition history_line (m : Message) : jsstring :=
  role m ++ js ": " ++ content m.

(** [messages.slice(-6).map(m => `${m.role}: ${m.content}`).join('\n')] *)
Definition conversationHistory (msgs : list Message) : jsstring :=
  join NEWLINE (map history_line (slice_last 6 msgs)).

Definition image_styles : list jsstring :=
  [js "mindmap"; js "diagram"; js "educational"].

Definition visualization_body (p style history : jsstring) : json :=
  JObj [("prompt", JStr p); ("style", JStr style);
        ("conversation_history", JStr history);
        ("aspect_ratio", JStr (js "16:9"))].

Definition visualization_url : jsstring := API_BASE ++ js "/generate/visualization".

Definition handleGenerateImage (customPrompt : option jsstring) (st : State)
  : State * Issued :=
  let p := opt_or_else customPrompt (inputValue st) in
  if negb (truthy (trim p)) || isLoading st then (st, [])
  else
    let userMessage :=
      plain_message (js "user")
        (if bool_decide (inputMode st = js "image")
         then js "🎨 生成图解：" ++ p else p) in
    let st1 := st |> setMessages (fun prev => prev ++ [userMessage]) in
    let st2 := if negb (opt_truthy customPrompt)
               then st1 |> setInputValue (to []) else st1 in
    (st2 |> setIsLoading (to true),
     [({| url := visualization_url; method := "POST"; headers := json_headers;
          body := JsonBody (visualization_body p (imageStyle st)
                              (conversationHistory (messages st))) |},
       AwaitVisualization p)]).

Definition handleGenerateImage_settled (p : jsstring)
    (res : Fetched VisualizationData unit) (clk : Clock) (st : State) : State :=
  (match res with
   | Fulfilled data =>
     st |> setMessages (fun prev => prev ++
             [{| role := js "assistant";
                 content := opt_or_else (viz_description data)
                              (js "已为「" ++ p ++ js "」生成知识图解");
                 sources := None;
                 imageBase64 := image_base64 data |}])
        |> setImageHistory (fun prev => prev ++
             [{| entry_id := date_now clk; entry_prompt := p;
                 entry_imageBase64 := image_base64 data;
                 createdAt := iso_now clk |}])
        |> showToast (js "图像生成成功！") (js "success") (toast_now clk)
   | NotOk _ =>
     st |> setMessages (fun prev => prev ++
             [plain_message (js "assistant") (js "抱歉，图像生成失败。请稍后重试。")])
        |> showToast (js "图像生成失败") (js "error") (toast_now clk)
   | Rejected =>
     st |> setMessages (fun prev => prev ++
             [plain_message (js "assistant")
                (js "连接服务器失败，请检查后端是否启动")])
        |> showToast (js "连接服务器失败") (js "error") (toast_now clk)
   end) |> setIsLoading (to false).

(** [onGenerateFromContent], the callback given to each ChatMessage. *)
Definition generate_prefix : jsstring := js "根据以下内容生成知识图解：".

Definition custom_prompt_of (content : jsstring) : jsstring :=
  let summary := substring0 2000 content in
  generate_prefix ++ summary.

Definition onGenerateFromContent (content : jsstring) (st : State) : State * Issued :=
  handleGenerateImage (Some (custom_prompt_of content)) st.

(** *** handleSubmit and handleKeyPress *)

Definition handleSubmit (st : State) : State * Issued :=
  if bool_decide (inputMode st = js "chat") then handleSend st
  else handleGenerateImage None st.

Definition handleKeyPress (key : jsstring) (shiftKey : bool) (st : State)
  : State * Issued :=
  if bool_decide (key = js "Enter") && negb shiftKey then handleSubmit st
  else (st, []).

(** *** handleShowRecommendations *)

Definition recommendations_body (st : State) : json :=
  JObj [("document_ids", JArr (map (fun d => JStr (id d)) (documents st)));
        ("conversation_history",
         JArr (map (fun m => JObj [("role", JStr (role m));
                                   ("content", JStr (content m))])
                   (messages st)))].

Definition handleShowRecommendations (st : State) : State * Issued :=
  if bool_decide (length (documents st) = 0)
  then (st |> setRecommendations (to []) |> setShowRecommendations (to true), [])
  else
    let endpoint := if bool_decide (inputMode st = js "chat")
                    then js "/recommendations/chat"
                    else js "/recommendations/visualization" in
    (st |> setIsLoadingRecommendations (to true) |> setShowRecommendations (to true),
     [({| url := API_BASE ++ endpoint; method := "POST"; headers := json_headers;
          body := JsonBody (recommendations_body st) |}, AwaitRecommendations)]).

Definition handleShowRecommendations_settled
    (res : Fetched RecommendationData unit) (st : State) : State :=
  (match res with
   | Fulfilled data => st |> setRecommendations (to (default [] (topics data)))
   | NotOk _ | Rejected => st |> setRecommendations (to [])
   end) |> setIsLoadingRecommendations (to false).

Definition handleSelectRecommendation (rec : Topic) (st : State) : State :=
  st |> setInputValue (to (prompt rec)) |> setShowRecommendations (to false).

(** ** The application as a machine

    User actions and settled requests are the events; a control that is
    not rendered or is disabled produces no event. *)

Inductive Reply : Type :=
| DocumentsReply (res : Fetched (list Document) unit)
| UploadReply (res : Fetched Document ErrorData)
| DeleteReply (res : Fetched unit unit)
| AskReply (res : Fetched AskData ErrorData)
| VisualizationReply (res : Fetched VisualizationData unit)
| RecommendationsReply (res : Fetched RecommendationData unit).

Inductive Event : Type :=
| ToggleSidebar
| ClickChatMode
| ClickImageMode
| ClickStyleMindmap
| ClickStyleDiagram
| ClickStyleEducational
| ChangeInput (value : jsstring)
| KeyPress (key : jsstring) (shiftKey : bool)
| ClickSend
| ClickSuggestion (i : nat)
| ClickRecommend
| CloseRecommendations
| ClickRecommendation (i : nat)
| ClickGenerateFromMessage (i : nat)
| ClickImage (i : nat)
| ClosePreview
| ChooseFiles (files : list File)
| ClickDelete (i : nat)
| SaveEdit (i : nat) (editValue : jsstring) (now : Z)
| ToastTimeout (tid : Z)
| Settled (k : nat) (reply : Reply) (clk : Clock).

Record Machine : Type := {
  app : State;
  inflight : list Pending
}.

(** The suggestions of WelcomeScreen. *)
Definition suggestions : list jsstring :=
  [js "这份文档的主要内容是什么？"; js "帮我总结一下关键知识点";
   js "解释一下这个概念"; js "生成复习问题"].

(** [files.forEach(... onUpload(file) ...)] with [onUpload = handleUpload]. *)
Definition upload_next (acc : State * Issued) (file : File) : State * Issued :=
  let '(s, issued) := acc in
  let '(s', more) := handleUpload file s in
  (s', issued ++ more).

Definition uploadAll (files : list File) (st : State) : State * Issued :=
  foldl upload_next (st, []) (handleFiles files).

(** An action of a control that is rendered and enabled only when [b]. *)
Definition when (b : bool) (r : State * Issued) : option (State * Issued) :=
  if b then Some r else None.

(** The effect of a user action on the state and the requests it issues. *)
Definition handle (e : Event) (st : State) : option (State * Issued) :=
  match e with
  | ToggleSidebar => Some (st |> setSidebarCollapsed negb, [])
  | ClickChatMode => Some (st |> setInputMode (to (js "chat")), [])
  | ClickImageMode => Some (st |> setInputMode (to (js "image")), [])
  | ClickStyleMindmap =>
    when (bool_decide (inputMode st = js "image"))
          (st |> setImageStyle (to (js "mindmap")), [])
  | ClickStyleDiagram =>
    when (bool_decide (inputMode st = js "image"))
          (st |> setImageStyle (to (js "diagram")), [])
  | ClickStyleEducational =>
    when (bool_decide (inputMode st = js "image"))
          (st |> setImageStyle (to (js "educational")), [])
  | ChangeInput value => Some (st |> setInputValue (to value), [])
  | KeyPress key shiftKey => Some (handleKeyPress key shiftKey st)
  | ClickSend => when (negb (send_button_disabled st)) (handleSubmit st)
  | ClickSuggestion i =>
    s ← suggestions !! i;
    when (bool_decide (length (messages st) = 0)) (st |> setInputValue (to s), [])
  | ClickRecommend =>
    when ((bool_decide (inputMode st = js "image")
            || bool_decide (inputMode st = js "chat"))
           && negb (isLoadingRecommendations st))
          (handleShowRecommendations st)
  | CloseRecommendations =>
    when (showRecommendations st) (st |> setShowRecommendations (to false), [])
  | ClickRecommendation i =>
    rec ← recommendations st !! i;
    when (showRecommendations st && negb (isLoadingRecommendations st))
          (handleSelectRecommendation rec st, [])
  | ClickGenerateFromMessage i =>
    msg ← messages st !! i;
    when (negb (bool_decide (role msg = js "user")))
          (onGenerateFromContent (content msg) st)
  | ClickImage i =>
    msg ← messages st !! i;
    when (opt_truthy (imageBase64 msg))
          (st |> setPreviewImage (to (imageBase64 msg)), [])
  | ClosePreview =>
    when (opt_truthy (previewImage st)) (st |> setPreviewImage (to None), [])
  | ChooseFiles files => Some (uploadAll files st)
  | ClickDelete i =>
    doc ← documents st !! i;
    Some (st, handleDelete (id doc))
  | SaveEdit i editValue now =>
    doc ← documents st !! i;
    Some (saveEdit (id doc) editValue now st, [])
  | ToastTimeout tid =>
    when (bool_decide (tid ∈ map toast_id (toasts st))) (removeToast tid st, [])
  | Settled _ _ _ => None
  end.

(** The continuation [p] run on the response it was waiting for. *)
Definition settle (p : Pending) (reply : Reply) (clk : Clock) (st : State)
  : option State :=
  match p, reply with
  | AwaitDocuments, DocumentsReply res => Some (fetchDocuments_settled res st)
  | AwaitUpload file, UploadReply res =>
    Some (handleUpload_settled file res (toast_now clk) st)
  | AwaitDelete docId, DeleteReply res =>
    Some (handleDelete_settled docId res (toast_now clk) st)
  | AwaitAsk, AskReply res => Some (handleSend_settled res st)
  | AwaitVisualization p, VisualizationReply res =>
    Some (handleGenerateImage_settled p res clk st)
  | AwaitRecommendations, RecommendationsReply res =>
    Some (handleShowRecommendations_settled res st)
  | _, _ => None
  end.

Definition step (m : Machine) (e : Event) : option (Machine * list Request) :=
  match e with
  | Settled k reply clk =>
    p ← inflight m !! k;
    st' ← settle p reply clk (app m);
    Some ({| app := st'; inflight := delete k (inflight m) |}, [])
  | _ =>
    '(st', issued) ← handle e (app m);
    Some ({| app := st'; inflight := inflight m ++ map snd issued |}, map fst issued)
  end.

(** The effects run on mount: [fetchDocuments()] and the display names
    saved in local storage, when there are any. *)
Definition mount (savedNames : option (gmap jsstring jsstring))
  : Machine * list Request :=
  let st := match savedNames with
            | Some names => initial_state |> setDisplayNames (to names)
            | None => initial_state
            end in
  ({| app := st; inflight := map snd fetchDocuments |}, map fst fetchDocuments).

Fixpoint run (m : Machine) (events : list Event) : option (Machine * list Request) :=
  match events with
  | [] => Some (m, [])
  | e :: rest =>
    '(m1, sent1) ← step m e;
    '(m2, sent2) ← run m1 rest;
    Some (m2, sent1 ++ sent2)
  end.

(** A session: mount, then a sequence of events; the result is the final
    machine and every request sent, in order. *)
Definition session (savedNames : option (gmap jsstring jsstring))
    (events : list Event) : option (Machine * list Request) :=
  let '(m0, sent0) := mount savedNames in
  '(m, sent) ← run m0 events;
  Some (m, sent0 ++ sent).

(** The message list on screen after each event of a run. *)
Fixpoint shown_messages (m : Machine) (events : list Event) : list (list Message) :=
  match events with
  | [] => []
  | e :: rest =>
    match step m e with
    | Some (m', _) => messages (app m') :: shown_messages m' rest
    | None => []
    end
  end.

(** A request to the generation endpoint as the interface describes it:
    a POST whose body has the four fields, a style of the closed set and
    the fixed aspect ratio. *)
Definition visualization_shaped (r : Request) : Prop :=
  method r = "POST"
  /\ exists p style history : jsstring,
       body r = JsonBody (JObj [("prompt", JStr p); ("style", JStr style);
                                ("conversation_history", JStr history);
                                ("aspect_ratio", JStr (js "16:9"))])
       /\ style ∈ image_styles.

(** ** DocumentList: the rename editor *)

(** The local state of DocumentList: [editingId] and [editValue]. *)
Record Editor : Type := {
  editingId : option jsstring;
  editValue : jsstring
}.

(** [startEdit]: the editor opens on the document, filled with its
    display name when it has one and with its file name otherwise (the
    display names are read as the object's own entries). *)
Definition startEdit (names : gmap jsstring jsstring) (doc : Document) : Editor :=
  {| editingId := Some (id doc);
     editValue := opt_or_else (names !! id doc) (filename doc) |}.

(** [onChange] of the name input. *)
Definition changeEdit (value : jsstring) (ed : Editor) : Editor :=
  {| editingId := editingId ed; editValue := value |}.

(** [saveEdit] in full: [onRename] when the value is not blank, then
    [setEditingId(null)]. *)
Definition saveEdit_full (docId : jsstring) (now : Z) (ed : Editor) (st : State)
  : Editor * State :=
  ({| editingId := None; editValue := editValue ed |},
   saveEdit docId (editValue ed) now st).

(** [handleKeyPress] of DocumentList: Enter saves, Escape cancels. *)
Definition editKeyDown (key docId : jsstring) (now : Z) (ed : Editor) (st : State)
  : Editor * State :=
  if bool_decide (key = js "Enter") then saveEdit_full docId now ed st
  else if bool_decide (key = js "Escape")
       then ({| editingId := None; editValue := editValue ed |}, st)
       else (ed, st).

(** ** The height of the input box *)

(** [Math.min(Math.max(clone.scrollHeight, 52), 200)] *)
Definition newHeight (scrollHeight : Z) : Z :=
  Z.min (Z.max scrollHeight 52) 200.

(** [parseInt(textarea.style.height) || 52], [parsed] being the result of
    [parseInt] when it is a number and [None] when it is NaN. *)
Definition currentHeight (parsed : option Z) : Z :=
  match parsed with
  | Some h => if (h =? 0)%Z then 52%Z else h
  | None => 52%Z
  end.

(** The effect on [inputValue]: the height written to the style, if any. *)
Definition resize (scrollHeight : Z) (parsed : option Z) : option Z :=
  if bool_decide (newHeight scrollHeight ≠ currentHeight parsed)
  then Some (newHeight scrollHeight) else None.

(** ** ImagePreviewModal *)

Definition SLASH : N := 47%N.
Definition DASH : N := 45%N.

(** [s.replace(/\//g, '-')] *)
Definition replace_slashes (s : jsstring) : jsstring :=
  map (fun c => if bool_decide (c = SLASH) then DASH else c) s.

(** [link.download], from the text [toLocaleDateString('zh-CN')] gave. *)
Definition download_name (localeDate : jsstring) : jsstring :=
  js "知识图解_" ++ replace_slashes localeDate ++ js ".png".

(** [link.href] *)
Definition download_href (image : jsstring) : jsstring :=
  js "data:image/png;base64," ++ image.

(** [handleKeyDown]: whether [onClose] is called. *)
Definition modalKeyDown (key : jsstring) : bool := bool_decide (key = js "Escape").

(** [handleBackdropClick]: whether [onClose] is called. *)
Definition backdropClick (targetClassName : jsstring) : bool :=
  bool_decide (targetClassName = js "image-modal-backdrop").

(** ** Counting what is in flight *)

(** The continuations of [handleSend] and [handleGenerateImage]. *)
Definition is_generation (p : Pending) : bool :=
  match p with
  | AwaitAsk | AwaitVisualization _ => true
  | _ => false
  end.

Definition is_recommendation (p : Pending) : bool :=
  match p with
  | AwaitRecommendations => true
  | _ => false
  end.

Definition pending_count (kind : Pending -> bool) (l : list Pending) : nat :=
  length (filter (fun p => kind p = true) l).

(** The role each position of an alternating conversation has. *)
Definition role_at (i : nat) : jsstring :=
  if Nat.even i then js "user" else js "assistant".

Definition alternates (msgs : list Message) : Prop :=
  forall i msg, msgs !! i = Some msg -> role msg = role_at i.

(** The request [handleUpload] sends for a file. *)
Definition upload_request (file : File) : Request :=
  {| url := API_BASE ++ js "/upload/"; method := "POST"; headers := [];
     body := FormData file |}.

(** A file name with a dot in it. *)
Definition dotted (f : File) : Prop := DOT ∈ name f.

(** What a user action does to the conversation: nothing, or it starts one
    generation, which appends the user's message and raises [isLoading]. *)
Inductive chat_effect (st : State) : State * Issued -> Prop :=
| chat_idle st' issued :
    messages st' = messages st ->
    isLoading st' = isLoading st ->
    imageHistory st' = imageHistory st ->
    Forall (fun rp => is_generation (snd rp) = false) issued ->
    chat_effect st (st', issued)
| chat_started st' r p c :
    isLoading st = false ->
    messages st' = messages st ++ [plain_message (js "user") c] ->
    isLoading st' = true ->
    imageHistory st' = imageHistory st ->
    is_generation p = true ->
    chat_effect st (st', [(r, p)]).

(** The invariant of the conversation. *)
Record chat_invariant (m : Machine) : Prop := {
  inv_roles : alternates (messages (app m));
  inv_loading : isLoading (app m) = Nat.odd (length (messages (app m)));
  inv_inflight :
    pending_count is_generation (inflight m) = if isLoading (app m) then 1 else 0
}.

(** What a user action does to the loading of recommendations: nothing,
    or it starts it. *)
Inductive rec_effect (st : State) : State * Issued -> Prop :=
| rec_idle st' issued :
    isLoadingRecommendations st' = isLoadingRecommendations st ->
    Forall (fun rp => is_recommendation (snd rp) = false) issued ->
    rec_effect st (st', issued)
| rec_started st' r :
    isLoadingRecommendations st = false ->
    isLoadingRecommendations st' = true ->
    rec_effect st (st', [(r, AwaitRecommendations)]).

(** The closed sets the interface relies on: the two input modes and the
    two kinds of toast. *)
Definition input_modes : list jsstring := [js "chat"; js "image"].

Definition toast_types : list jsstring := [js "success"; js "error"].

Definition ui_invariant (st : State) : Prop :=
  inputMode st ∈ input_modes
  /\ Forall (fun t => toast_type t ∈ toast_types) (toasts st).

(** A request the application may send: to the back end at [API_BASE],
    with one of the three methods it uses, a JSON content type exactly
    when the body is JSON. *)
Definition to_backend (r : Request) : Prop :=
  API_BASE `prefix_of` url r
  /\ method r ∈ ["GET"; "POST"; "DELETE"]
  /\ (headers r = json_headers <-> exists j, body r = JsonBody j).

(** ** Predicates used in the statements *)

(** Two code units that are the same letter: equal, or a capital of A to
    Z (65 to 90) and its small letter, 32 further. *)
Definition same_letter (c d : N) : Prop :=
  c = d
  \/ ((65 <= c)%N /\ (c <= 90)%N) /\ d = (c + 32)%N
  \/ ((65 <= d)%N /\ (d <= 90)%N) /\ c = (d + 32)%N.

(** Two names that differ only in the case of the letters A to Z. *)
Definition same_up_to_case (s t : jsstring) : Prop := Forall2 same_letter s t.

(** The flattened text of a list of messages, as the interface describes
    it: one line per message, made of the role, a colon (58), a space
    (32) and the content; a newline (10) between two lines. *)
Fixpoint flattened_lines (window : list Message) : jsstring :=
  match window with
  | [] => []
  | m :: rest =>
    role m ++ [58%N; 32%N] ++ content m
    ++ match rest with
       | [] => []
       | _ :: _ => 10%N :: flattened_lines rest
       end
  end.

(** The integer nearest to [p], the upper one at a tie. *)
Definition rounds_to (p : Q) (z : Z) : Prop :=
  (inject_Z z <= p + (1 # 2))%Q /\ (p + (1 # 2) < inject_Z (z + 1))%Q.

(** The recommendation types that have an icon of their own. *)
Definition known_types : list jsstring :=
  [js "overview"; js "chapter"; js "summary"; js "qa"; js "review"].

(** The file names the handler lets through. *)
Definition accepts (f : File) : bool :=
  match ext_of (name f) with
  | Some ext => bool_decide (ext ∈ supported_types)
  | None => false
  end.

(** A request is in order when, if it goes to the generation endpoint, it
    has the shape of a visualization request. *)
Definition request_ok (r : Request) : Prop :=
  url r = visualization_url -> visualization_shaped r.

(** A handler is well behaved when it keeps the style inside the closed
    set and issues only requests in order. *)
Definition well_behaved (st : State) (out : State * Issued) : Prop :=
  imageStyle st ∈ image_styles ->
  imageStyle (fst out) ∈ image_styles
  /\ Forall (fun rp => request_ok (fst rp)) (snd out).

(** ** Sample values *)

Definition over_scored : Source :=
  {| document_id := js "d1"; document_name := js "notes.pdf";
     relevance_score := Finite (1234 # 1000) |}.

Definition well_scored : Source :=
  {| document_id := js "d2"; document_name := js "slides.pptx";
     relevance_score := Finite (873 # 1000) |}.

Definition twice_cited_message : Message :=
  {| role := js "assistant"; content := js "ok";
     sources := Some [well_scored; over_scored]; imageBase64 := None |}.

Definition cited_message : Message :=
  {| role := js "assistant"; content := js "ok";
     sources := Some [over_scored]; imageBase64 := None |}.

Definition doc_a : Document :=
  {| id := js "a"; filename := js "a.pdf"; file_type := js "pdf"; chunk_count := 3 |}.

Definition doc_b : Document :=
  {| id := js "b"; filename := js "b.txt"; file_type := js "txt"; chunk_count := 1 |}.

Definition two_documents : State :=
  initial_state
    |> setDocuments (to [doc_a; doc_b])
    |> setDisplayNames (to (<[js "a" := js "Algebra"]> (<[js "b" := js "Biology"]> ∅))).

Definition numbered (n : N) : Message := plain_message (js "user") [n].

Definition eight_messages : State :=
  initial_state
    |> setMessages (to (map numbered [49; 50; 51; 52; 53; 54; 55; 56]%N))
    |> setInputValue (to (js "x")).

Definition eight_turns : State :=
  initial_state
    |> setInputMode (to (js "image"))
    |> setMessages
         (to [plain_message (js "user") (js "q1");
              plain_message (js "assistant") (js "a1");
              plain_message (js "user") (js "q2");
              plain_message (js "assistant") (js "a2");
              plain_message (js "user") (js "q3");
              plain_message (js "assistant") (js "a3");
              plain_message (js "user") (js "q4");
              plain_message (js "assistant") (js "a4")])
    |> setInputValue (to (js "x")).

Definition eight_turns_request : Request :=
  {| url := visualization_url; method := "POST"; headers := json_headers;
     body := JsonBody
       (JObj [("prompt", JStr (js "x")); ("style", JStr (js "mindmap"));
              ("conversation_history",
               JStr (js "user: q2" ++ [10%N] ++ js "assistant: a2" ++ [10%N]
                     ++ js "user: q3" ++ [10%N] ++ js "assistant: a3" ++ [10%N]
                     ++ js "user: q4" ++ [10%N] ++ js "assistant: a4"));
              ("aspect_ratio", JStr (js "16:9"))]) |}.

Definition capital_notes : File := {| name := js "Notes.PdF"; payload := [1%N] |}.

Definition small_notes : File := {| name := js "nOTES.pDf"; payload := [2%N] |}.

Definition sample_clock : Clock :=
  {| date_now := 1000; iso_now := js "2025-01-01T00:00:00.000Z"; toast_now := 1001 |}.

Definition ask_hi : list Event :=
  [ChangeInput (js "hi");
   KeyPress (js "Enter") false;
   Settled 1 (AskReply (Fulfilled {| answer := js "Hello world";
                                     ask_sources := None |})) sample_clock].

Definition diagram_events : list Event :=
  [ClickImageMode; ClickStyleDiagram; ChangeInput (js "cache"); ClickSend].

Definition diagram_request : Request :=
  {| url := visualization_url; method := "POST"; headers := json_headers;
     body := JsonBody (visualization_body (js "cache") (js "diagram") []) |}.

Definition diagram_run : Machine * list Request :=
  default (mount None) (session None diagram_events).

Definition typed_question : State :=
  initial_state |> setInputValue (to (js " why? ")).

Definition ask_hi_run : Machine * list Request :=
  default (mount None) (session None ask_hi).

Definition diagram_pending_run : Machine * list Request :=
  default (mount None) (session None diagram_events).

Definition mixed_selection : list File :=
  [{| name := js "notes.PDF"; payload := [] |};
   {| name := js "run.exe"; payload := [] |};
   {| name := js "slides.v2.pptx"; payload := [] |}].

Definition typed_machine : Machine :=
  {| app := typed_question; inflight := [AwaitDocuments] |}.

Definition image_machine : Machine :=
  {| app := initial_state |> setInputMode (to (js "image"))
                          |> setInputValue (to (js "cache"));
     inflight := [] |}.

Definition one_document_machine : Machine :=
  {| app := initial_state |> setDocuments (to [doc_a]); inflight := [] |}.

Definition no_topics : RecommendationData := {| topics := None |}.

Definition recommend_events : list Event :=
  [Settled 0 (DocumentsReply (Fulfilled [doc_a])) sample_clock; ClickRecommend].

Definition recommend_run : Machine * list Request :=
  default (mount None) (session None recommend_events).

Definition three_toasts : State :=
  initial_state
    |> showToast (js "a") (js "success") 7
    |> showToast (js "b") (js "error") 7
    |> showToast (js "c") (js "success") 9.

Definition popup_machine : Machine :=
  {| app := initial_state
            |> setRecommendations
                 (to [{| type := js "qa"; title := js "Quiz";
                         description := js "Test yourself";
                         prompt := js "Ask me five questions" |}])
            |> setShowRecommendations (to true);
     inflight := [] |}.

Definition pdf_file : File := {| name := js "a.pdf"; payload := [1%N] |}.

Definition txt_file : File := {| name := js "b.TXT"; payload := [2%N] |}.

Definition delete_events : list Event :=
  [Settled 0 (DocumentsReply (Fulfilled [doc_a])) sample_clock;
   ClickDelete 0;
   Settled 0 (DeleteReply Rejected) sample_clock;
   ClickImageMode].

Definition delete_run : Machine * list Request :=
  default (mount None) (session None delete_events).

Definition seasoned_machine : Machine :=
  {| app := initial_state
            |> setMessages (to [plain_message (js "user") (js "q1");
                                plain_message (js "assistant") (js "a1")])
            |> setImageHistory
                 (to [{| entry_id := 5; entry_prompt := js "heap";
                         entry_imageBase64 := Some (js "iVBOR");
                         createdAt := js "2024-12-31T00:00:00.000Z" |}])
            |> setInputValue (to (js "hi"));
     inflight := [] |}.

Definition seasoned_events : list Event :=
  [ClickSend;
   Settled 0 (AskReply (Fulfilled {| answer := js "Hello"; ask_sources := None |}))
           sample_clock;
   ClickImageMode;
   ChangeInput (js "tree");
   ClickSend;
   Settled 0 (VisualizationReply
                (Fulfilled {| viz_description := None;
                              image_base64 := Some (js "AAAA") |}))
           sample_clock].

Definition seasoned_run : Machine * list Request :=
  default (seasoned_machine, []) (run seasoned_machine seasoned_events).

(** * Properties *)

(** ** Numbers and the relevance badge *)

Lemma Math_min_hundred_not_above (x : jsnum) :
  js_gt (Math_min hundred x) hundred = false.
Proof.
  destruct x as [q| | |]; simpl; try reflexivity.
  destruct (Qle_bool 100 q) eqn:E; simpl.
  - reflexivity.
  - apply negb_false_iff, Qle_bool_iff, Qlt_le_weak, Qnot_le_lt.
    intros H. apply Qle_bool_iff in H. congruence.
Qed.

Lemma Math_min_hundred_finite (x : jsnum) (q : Q) :
  Math_min hundred x = Finite q -> (q <= 100)%Q.
Proof.
  destruct x as [p| | |]; simpl; try discriminate.
  - destruct (Qle_bool 100 p) eqn:E; intros [= <-].
    + apply Qle_refl.
    + apply Qlt_le_weak, Qnot_le_lt. intros H.
      apply Qle_bool_iff in H. congruence.
  - intros [= <-]. apply Qle_refl.
Qed.

Lemma source_badges_lookup (fl : Q -> jsnum) (message : Message)
    (srcs : list Source) (i : nat) (source : Source) :
  sources message = Some srcs ->
  srcs !! i = Some source ->
  source_badges fl message !! i = Some (badge fl source).
Proof.
  intros Hs Hi. unfold source_badges. rewrite Hs.
  case_bool_decide as Hlen.
  - rewrite list_lookup_fmap, Hi. reflexivity.
  - destruct srcs; [discriminate Hi | simpl in Hlen; lia].
Qed.

Lemma Math_round_rounds (p : Q) :
  rounds_to p (Qfloor (p + (1 # 2))).
Proof. split; [apply Qfloor_le | apply Qlt_floor]. Qed.

Lemma rounds_to_unique (p : Q) (z1 z2 : Z) :
  rounds_to p z1 -> rounds_to p z2 -> z1 = z2.
Proof.
  intros [Hl1 Hu1] [Hl2 Hu2].
  assert (H12 : (inject_Z z1 < inject_Z (z2 + 1))%Q)
    by (eapply Qle_lt_trans; eassumption).
  assert (H21 : (inject_Z z2 < inject_Z (z1 + 1))%Q)
    by (eapply Qle_lt_trans; eassumption).
  rewrite <- Zlt_Qlt in H12, H21. lia.
Qed.

Lemma Math_min_hundred_whole (z : Z) :
  Math_min hundred (Finite (inject_Z z)) = Finite (inject_Z (Z.min 100 z)).
Proof.
  unfold Math_min, hundred.
  destruct (Qle_bool 100 (inject_Z z)) eqn:E.
  - apply Qle_bool_iff in E. change 100%Q with (inject_Z 100) in E.
    rewrite <- Zle_Qle in E. rewrite Z.min_l by exact E. reflexivity.
  - destruct (Z.le_gt_cases 100 z) as [Hle|Hgt].
    + rewrite Zle_Qle in Hle. apply Qle_bool_iff in Hle.
      change (inject_Z 100) with 100%Q in Hle. congruence.
    + rewrite Z.min_r by lia. reflexivity.
Qed.

(** C1. Every badge rendered for a source of a message is
    [Math.min(100, Math.round(relevance_score * 100))]. For a finite
    score [q] whose product with 100 is the finite number [p], the badge
    is the whole number [min 100 z], [z] being the integer nearest to [p]
    (the upper one at a tie); a product or a score of plus infinity gives
    100, of minus infinity gives minus infinity, and NaN gives NaN. So
    the badge is never greater than 100, whatever the score and however
    the product is rounded. *)
Theorem badge_clamped (fl : Q -> jsnum) (message : Message)
    (srcs : list Source) (i : nat) (source : Source) :
  sources message = Some srcs ->
  srcs !! i = Some source ->
  exists b : jsnum,
    source_badges fl message !! i = Some b
    /\ b = Math_min hundred (Math_round (js_mul fl (relevance_score source) hundred))
    /\ js_gt b hundred = false
    /\ (forall q, b = Finite q -> (q <= 100)%Q)
    /\ (forall q p,
          relevance_score source = Finite q -> fl (q * 100)%Q = Finite p ->
          exists z : Z,
            ((inject_Z z <= p + (1 # 2))%Q /\ (p + (1 # 2) < inject_Z (z + 1))%Q)
            /\ b = Finite (inject_Z (Z.min 100 z)))
    /\ (forall q,
          relevance_score source = Finite q -> fl (q * 100)%Q = PosInf ->
          b = Finite 100)
    /\ (forall q,
          relevance_score source = Finite q -> fl (q * 100)%Q = NegInf ->
          b = NegInf)
    /\ (forall q,
          relevance_score source = Finite q -> fl (q * 100)%Q = NaN ->
          b = NaN)
    /\ (relevance_score source = PosInf -> b = Finite 100)
    /\ (relevance_score source = NegInf -> b = NegInf)
    /\ (relevance_score source = NaN -> b = NaN).
Proof.
  intros Hs Hi. exists (badge fl source).
  split; [eapply source_badges_lookup; eassumption|].
  split; [reflexivity|].
  split; [apply Math_min_hundred_not_above|].
  split; [apply Math_min_hundred_finite|].
  unfold badge.
  split; [|split; [|split; [|split; [|split; [|split]]]]].
  - intros q p Hq Hp. rewrite Hq. cbn [js_mul hundred]. rewrite Hp.
    exists (Qfloor (p + (1 # 2))). split; [apply Math_round_rounds|].
    cbn [Math_round]. apply Math_min_hundred_whole.
  - intros q Hq Hp. rewrite Hq. cbn [js_mul hundred]. rewrite Hp. reflexivity.
  - intros q Hq Hp. rewrite Hq. cbn [js_mul hundred]. rewrite Hp. reflexivity.
  - intros q Hq Hp. rewrite Hq. cbn [js_mul hundred]. rewrite Hp. reflexivity.
  - intros ->. reflexivity.
  - intros ->. reflexivity.
  - intros ->. reflexivity.
Qed.

Lemma badge_clamped_witness :
  exists b : jsnum,
    source_badges Finite twice_cited_message !! 0%nat = Some b
    /\ b = Math_min hundred
             (Math_round (js_mul Finite (relevance_score well_scored) hundred))
    /\ js_gt b hundred = false
    /\ (forall q, b = Finite q -> (q <= 100)%Q)
    /\ (forall q p,
          relevance_score well_scored = Finite q -> Finite (q * 100)%Q = Finite p ->
          exists z : Z,
            ((inject_Z z <= p + (1 # 2))%Q /\ (p + (1 # 2) < inject_Z (z + 1))%Q)
            /\ b = Finite (inject_Z (Z.min 100 z)))
    /\ (forall q,
          relevance_score well_scored = Finite q -> Finite (q * 100)%Q = PosInf ->
          b = Finite 100)
    /\ (forall q,
          relevance_score well_scored = Finite q -> Finite (q * 100)%Q = NegInf ->
          b = NegInf)
    /\ (forall q,
          relevance_score well_scored = Finite q -> Finite (q * 100)%Q = NaN ->
          b = NaN)
    /\ (relevance_score well_scored = PosInf -> b = Finite 100)
    /\ (relevance_score well_scored = NegInf -> b = NegInf)
    /\ (relevance_score well_scored = NaN -> b = NaN).
Proof.
  apply (badge_clamped Finite twice_cited_message [well_scored; over_scored] 0
           well_scored);
    reflexivity.
Defined.

(** With the product taken exactly: 0.873 shows 87, 1.234 shows 100, and
    the tie 0.875 goes up to 88. *)
Example badges_of_twice_cited :
  source_badges Finite twice_cited_message = [Finite 87; Finite 100].
Proof. reflexivity. Qed.

Example badge_of_a_tie :
  badge Finite {| document_id := []; document_name := [];
                  relevance_score := Finite (875 # 1000) |} = Finite 88
  /\ rounds_to (875 # 10) 88.
Proof. split; [reflexivity|]. split; [discriminate | reflexivity]. Qed.

Example badge_of_over_scored :
  source_badges Finite cited_message = [Finite 100].
Proof. reflexivity. Qed.

Example badge_of_infinite_score :
  badge Finite {| document_id := []; document_name := [];
                  relevance_score := PosInf |} = Finite 100.
Proof. reflexivity. Qed.

(** ** Recommendations on an empty corpus *)

(** C2. With no document in the list, [handleShowRecommendations] sets
    the topics to the empty list and opens the popup; it issues no
    request, does not start the loading state, and raises no toast and
    no message: nothing reports an error. *)
Theorem empty_corpus_recommendations (st : State) :
  documents st = [] ->
  recommendations (fst (handleShowRecommendations st)) = []
  /\ snd (handleShowRecommendations st) = []
  /\ showRecommendations (fst (handleShowRecommendations st)) = true
  /\ isLoadingRecommendations (fst (handleShowRecommendations st))
     = isLoadingRecommendations st
  /\ toasts (fst (handleShowRecommendations st)) = toasts st
  /\ messages (fst (handleShowRecommendations st)) = messages st.
Proof.
  intros Hdocs. unfold handleShowRecommendations. rewrite Hdocs. simpl.
  repeat split.
Qed.

Lemma empty_corpus_recommendations_witness :
  recommendations (fst (handleShowRecommendations initial_state)) = []
  /\ snd (handleShowRecommendations initial_state) = []
  /\ showRecommendations (fst (handleShowRecommendations initial_state)) = true
  /\ isLoadingRecommendations (fst (handleShowRecommendations initial_state))
     = isLoadingRecommendations initial_state
  /\ toasts (fst (handleShowRecommendations initial_state)) = toasts initial_state
  /\ messages (fst (handleShowRecommendations initial_state))
     = messages initial_state.
Proof. apply (empty_corpus_recommendations initial_state). reflexivity. Defined.

(** The same through the machine: the click sends nothing and leaves no
    continuation waiting. *)
Lemma click_recommend_empty_corpus (m m' : Machine) (sent : list Request) :
  documents (app m) = [] ->
  step m ClickRecommend = Some (m', sent) ->
  sent = [] /\ inflight m' = inflight m /\ recommendations (app m') = [].
Proof.
  intros Hdocs. unfold step, handle, when, handleShowRecommendations.
  rewrite Hdocs. simpl.
  destruct (_ && _); simpl; [|discriminate].
  intros [= <- <-]. simpl. rewrite app_nil_r. repeat split.
Qed.

(** ** The guard of the send button *)

Lemma send_blocked_iff (st : State) :
  send_blocked st = true <-> trim (inputValue st) = [] \/ isLoading st = true.
Proof.
  unfold send_blocked. rewrite orb_true_iff, negb_true_iff.
  destruct (trim (inputValue st)); simpl; intuition congruence.
Qed.

(** C9. When the trimmed input is empty or a request is loading,
    [handleSend] and [handleGenerateImage] without a custom prompt (and so
    [handleSubmit] in either mode) return the state as it is, hence the
    same message list, and issue no request; the send button is disabled
    in exactly that case. *)
Theorem blank_or_loading_guard (st : State) :
  trim (inputValue st) = [] \/ isLoading st = true ->
  handleSend st = (st, [])
  /\ handleGenerateImage None st = (st, [])
  /\ handleSubmit st = (st, [])
  /\ send_button_disabled st = true.
Proof.
  intros H. apply send_blocked_iff in H.
  assert (Hs : handleSend st = (st, [])).
  { unfold handleSend. rewrite H. reflexivity. }
  assert (Hg : handleGenerateImage None st = (st, [])).
  { unfold handleGenerateImage. simpl. unfold send_blocked in H.
    rewrite H. reflexivity. }
  repeat split; try assumption.
  unfold handleSubmit. case_bool_decide; assumption.
Qed.

Lemma blank_or_loading_guard_witness :
  handleSend initial_state = (initial_state, [])
  /\ handleGenerateImage None initial_state = (initial_state, [])
  /\ handleSubmit initial_state = (initial_state, [])
  /\ send_button_disabled initial_state = true.
Proof. apply (blank_or_loading_guard initial_state). left. reflexivity. Defined.

Lemma send_button_disabled_iff (st : State) :
  send_button_disabled st = true
  <-> trim (inputValue st) = [] \/ isLoading st = true.
Proof. apply send_blocked_iff. Qed.

Example whitespace_only_is_blocked :
  handleSend (initial_state |> setInputValue (to (js "  ")))
  = (initial_state |> setInputValue (to (js "  ")), []).
Proof. reflexivity. Qed.

(** ** The prompt built from a reply *)

Lemma generate_prefix_length : length generate_prefix = 13.
Proof. reflexivity. Qed.

(** C10. The custom prompt built from a message is the fixed prefix
    followed by the first 2000 code units of the content (all of it when
    it is shorter), so its length is at most 2000 plus the length of the
    prefix; this is the prompt handed to [handleGenerateImage]. *)
Theorem custom_prompt_bounded (content : jsstring) (st : State) :
  custom_prompt_of content = generate_prefix ++ take 2000 content
  /\ take 2000 content `prefix_of` content
  /\ length (take 2000 content) = Nat.min 2000 (length content)
  /\ length (custom_prompt_of content) <= 2000 + length generate_prefix
  /\ onGenerateFromContent content st
     = handleGenerateImage (Some (custom_prompt_of content)) st.
Proof.
  unfold custom_prompt_of, substring0. repeat split.
  - apply prefix_take.
  - apply length_take.
  - rewrite length_app, length_take. lia.
Qed.

Example short_content_kept_whole :
  custom_prompt_of (js "abc") = generate_prefix ++ js "abc".
Proof. reflexivity. Qed.

Example long_content_cut :
  length (custom_prompt_of (replicate 5000 97%N)) = 2013.
Proof. vm_compute. reflexivity. Qed.

(** ** The icon of a recommendation *)

(** C8. [rec_icon] is defined on every string: the five known types get
    the icons written for them, the six icons are pairwise different, and
    every other string gets the fallback icon. *)
Theorem rec_icon_total (rec_type : jsstring) :
  rec_type ∉ known_types ->
  rec_icon rec_type = icon_fallback
  /\ map rec_icon known_types
     = [icon_overview; icon_chapter; icon_summary; icon_qa; icon_review]
  /\ NoDup [icon_overview; icon_chapter; icon_summary; icon_qa; icon_review;
            icon_fallback].
Proof.
  intros Hnot. split; [|split].
  - unfold rec_icon, known_types in *.
    repeat (case_bool_decide; [subst; exfalso; apply Hnot; set_solver|]).
    reflexivity.
  - reflexivity.
  - apply (bool_decide_unpack _). vm_compute. exact I.
Qed.

Lemma rec_icon_total_witness :
  rec_icon (js "other") = icon_fallback
  /\ map rec_icon known_types
     = [icon_overview; icon_chapter; icon_summary; icon_qa; icon_review]
  /\ NoDup [icon_overview; icon_chapter; icon_summary; icon_qa; icon_review;
            icon_fallback].
Proof.
  apply (rec_icon_total (js "other")).
  apply (bool_decide_unpack _). vm_compute. exact I.
Defined.

(** ** Removing a document *)

(** C6. After a delete request that succeeded, no document of the list
    has the deleted id and the display names have no entry for it; the
    list is the old one without the documents of that id, so every other
    document is kept, in place, and every other display name is as it
    was. After a request that failed (a response that is not ok, or an
    exception) the document list and the display names are unchanged. *)
Theorem delete_postcondition_and_frame (docId : jsstring) (now : Z) (st : State) :
  Forall (fun d => id d ≠ docId)
         (documents (handleDelete_settled docId (Fulfilled ()) now st))
  /\ displayNames (handleDelete_settled docId (Fulfilled ()) now st) !! docId = None
  /\ documents (handleDelete_settled docId (Fulfilled ()) now st)
     = filter (fun d => id d ≠ docId) (documents st)
  /\ (forall d, id d ≠ docId ->
        d ∈ documents (handleDelete_settled docId (Fulfilled ()) now st)
        <-> d ∈ documents st)
  /\ (forall k, k ≠ docId ->
        displayNames (handleDelete_settled docId (Fulfilled ()) now st) !! k
        = displayNames st !! k)
  /\ documents (handleDelete_settled docId (NotOk ()) now st) = documents st
  /\ displayNames (handleDelete_settled docId (NotOk ()) now st) = displayNames st
  /\ documents (handleDelete_settled docId Rejected now st) = documents st
  /\ displayNames (handleDelete_settled docId Rejected now st) = displayNames st.
Proof.
  simpl. split; [|split; [|split; [|split; [|split]]]].
  - apply Forall_forall. intros d Hd. apply list_elem_of_filter in Hd. tauto.
  - apply lookup_delete_eq.
  - reflexivity.
  - intros d Hd. rewrite list_elem_of_filter. tauto.
  - intros k Hk. apply lookup_delete_ne. congruence.
  - repeat split.
Qed.

Example delete_a_keeps_b :
  documents (handleDelete_settled (js "a") (Fulfilled ()) 0 two_documents) = [doc_b]
  /\ displayNames (handleDelete_settled (js "a") (Fulfilled ()) 0 two_documents)
       !! js "a" = None
  /\ displayNames (handleDelete_settled (js "a") (Fulfilled ()) 0 two_documents)
       !! js "b" = Some (js "Biology").
Proof. vm_compute. repeat split. Qed.

(** ** The window of conversation history *)

Lemma slice_last_length {A} (n : nat) (l : list A) :
  length (slice_last n l) = Nat.min n (length l).
Proof. unfold slice_last. rewrite length_drop. lia. Qed.

Lemma slice_last_split {A} (n : nat) (l : list A) :
  l = take (length l - n) l ++ slice_last n l.
Proof. unfold slice_last. symmetry. apply take_drop. Qed.

Lemma slice_last_app {A} (n : nat) (older window : list A) :
  length window = n -> slice_last n (older ++ window) = window.
Proof.
  intros Hn. unfold slice_last. rewrite length_app, Hn.
  replace (length older + n - n) with (length older) by lia.
  apply drop_app_length.
Qed.

Lemma slice_last_short {A} (n : nat) (l : list A) :
  length l <= n -> slice_last n l = l.
Proof.
  intros Hn. unfold slice_last.
  replace (length l - n) with 0 by lia. reflexivity.
Qed.

Lemma history_lines_flattened (window : list Message) :
  join NEWLINE (map history_line window) = flattened_lines window.
Proof.
  assert (Hsep : js ": " = [58%N; 32%N]) by (vm_compute; reflexivity).
  induction window as [|m rest IH]; [reflexivity|].
  destruct rest as [|m' rest'].
  - cbn [map join flattened_lines]. unfold history_line. rewrite Hsep.
    rewrite app_nil_r. reflexivity.
  - change (join NEWLINE (map history_line (m :: m' :: rest')))
      with (history_line m ++ NEWLINE ++ join NEWLINE (map history_line (m' :: rest'))).
    rewrite IH. unfold history_line, NEWLINE. rewrite Hsep.
    cbn [flattened_lines]. rewrite <- !app_assoc. reflexivity.
Qed.

(** C5. When [handleGenerateImage] issues its request, the message list
    splits into older messages and a window of its last messages, at most
    6 of them (exactly 6 when anything is older); the
    [conversation_history] field of the body is the flattened text of the
    window: for each of its messages, in order, the role, a colon and a
    space, and the content, with a newline between two lines. It is the
    same whatever precedes a full window: no older message contributes
    to it. *)
Theorem history_is_recent_window (customPrompt : option jsstring)
    (st st' : State) (r : Request) (p : Pending) :
  handleGenerateImage customPrompt st = (st', [(r, p)]) ->
  exists older window : list Message,
    messages st = older ++ window
    /\ length window <= 6
    /\ (older = [] \/ length window = 6)
    /\ window = drop (length (messages st) - 6) (messages st)
    /\ body r = JsonBody
         (JObj [("prompt", JStr (opt_or_else customPrompt (inputValue st)));
                ("style", JStr (imageStyle st));
                ("conversation_history", JStr (flattened_lines window));
                ("aspect_ratio", JStr (js "16:9"))])
    /\ body r = JsonBody
         (visualization_body (opt_or_else customPrompt (inputValue st))
            (imageStyle st) (join NEWLINE (map history_line window)))
    /\ (forall older' : list Message,
          length window = 6 ->
          conversationHistory (older' ++ window) = flattened_lines window).
Proof.
  unfold handleGenerateImage.
  destruct (negb _ || _); [discriminate|].
  intros [= _ <- _].
  exists (take (length (messages st) - 6) (messages st)), (slice_last 6 (messages st)).
  pose proof (slice_last_length 6 (messages st)) as Hlen.
  split; [apply slice_last_split|].
  split; [lia|].
  split.
  { destruct (decide (length (messages st) <= 6)) as [Hle|Hgt].
    - left. replace (length (messages st) - 6) with 0 by lia. reflexivity.
    - right. lia. }
  split; [reflexivity|].
  split.
  { cbn [body]. unfold visualization_body, conversationHistory.
    rewrite history_lines_flattened. reflexivity. }
  split; [reflexivity|].
  intros older' H6. unfold conversationHistory.
  rewrite slice_last_app by exact H6. apply history_lines_flattened.
Qed.

Lemma history_is_recent_window_witness :
  exists older window : list Message,
    messages eight_turns = older ++ window
    /\ length window <= 6
    /\ (older = [] \/ length window = 6)
    /\ window = drop (length (messages eight_turns) - 6) (messages eight_turns)
    /\ body eight_turns_request = JsonBody
         (JObj [("prompt", JStr (opt_or_else None (inputValue eight_turns)));
                ("style", JStr (imageStyle eight_turns));
                ("conversation_history", JStr (flattened_lines window));
                ("aspect_ratio", JStr (js "16:9"))])
    /\ body eight_turns_request = JsonBody
         (visualization_body (opt_or_else None (inputValue eight_turns))
            (imageStyle eight_turns) (join NEWLINE (map history_line window)))
    /\ (forall older' : list Message,
          length window = 6 ->
          conversationHistory (older' ++ window) = flattened_lines window).
Proof.
  apply (history_is_recent_window None eight_turns
           (fst (handleGenerateImage None eight_turns)) eight_turns_request
           (AwaitVisualization (js "x"))).
  vm_compute. reflexivity.
Defined.

(** The request of the sample: the two oldest of the eight messages are
    left out, the six lines are separated by single newlines. *)
Example history_of_eight_turns :
  snd (handleGenerateImage None eight_turns)
  = [(eight_turns_request, AwaitVisualization (js "x"))]
  /\ flattened_lines (drop 2 (messages eight_turns))
     = [117; 115; 101; 114; 58; 32; 113; 50; 10;
        97; 115; 115; 105; 115; 116; 97; 110; 116; 58; 32; 97; 50; 10;
        117; 115; 101; 114; 58; 32; 113; 51; 10;
        97; 115; 115; 105; 115; 116; 97; 110; 116; 58; 32; 97; 51; 10;
        117; 115; 101; 114; 58; 32; 113; 52; 10;
        97; 115; 115; 105; 115; 116; 97; 110; 116; 58; 32; 97; 52]%N.
Proof. vm_compute. split; reflexivity. Qed.

Example history_of_eight_messages :
  conversationHistory (messages eight_messages)
  = js "user: 3" ++ NEWLINE ++ js "user: 4" ++ NEWLINE ++ js "user: 5" ++ NEWLINE
    ++ js "user: 6" ++ NEWLINE ++ js "user: 7" ++ NEWLINE ++ js "user: 8".
Proof. reflexivity. Qed.

Example history_of_two_messages :
  conversationHistory (map numbered [49; 50]%N)
  = js "user: 1" ++ NEWLINE ++ js "user: 2".
Proof. reflexivity. Qed.

(** ** Which files are uploaded *)

Lemma split_nonempty (sep : N) (s : jsstring) : split sep s ≠ [].
Proof.
  destruct s as [|c r]; simpl; [discriminate|].
  case_bool_decide; [discriminate|].
  destruct (split sep r); discriminate.
Qed.

(** [pop] always finds a last segment: the extension test never throws. *)
Lemma ext_of_defined (file_name : jsstring) : is_Some (ext_of file_name).
Proof.
  unfold ext_of. apply fmap_is_Some.
  destruct (split DOT file_name) as [|seg segs] eqn:E.
  - exfalso. eapply split_nonempty, E.
  - rewrite last_is_Some. discriminate.
Qed.

Lemma handleFiles_cons (file : File) (rest : list File) :
  handleFiles (file :: rest)
  = if accepts file then file :: handleFiles rest else handleFiles rest.
Proof.
  cbn [handleFiles]. unfold accepts.
  destruct (ext_of (name file)); reflexivity.
Qed.

Lemma handleFiles_filter (files : list File) :
  handleFiles files = filter (fun f => accepts f = true) files.
Proof.
  induction files as [|f rest IH]; [reflexivity|].
  rewrite handleFiles_cons, IH.
  destruct (accepts f) eqn:E.
  - rewrite filter_cons_True by exact E. reflexivity.
  - rewrite filter_cons_False by congruence. reflexivity.
Qed.

(** How the last segment of [split] relates to the final extension: they
    are the same when the name has a dot, and without a dot the last
    segment is the whole name. *)
Lemma split_final_extension (s : jsstring) :
  (final_extension s = None -> split DOT s = [s])
  /\ (forall e, final_extension s = Some e ->
        last (split DOT s) = Some e /\ 2 <= length (split DOT s)).
Proof.
  induction s as [|c r [IHnone IHsome]]; simpl.
  - split; [reflexivity | discriminate].
  - destruct (final_extension r) as [e'|] eqn:E.
    + split; [discriminate|]. intros e [= <-].
      destruct (IHsome e' eq_refl) as [Hlast Hlen].
      case_bool_decide.
      * split; [|simpl; lia].
        destruct (split DOT r); [simpl in Hlen; lia | exact Hlast].
      * destruct (split DOT r) as [|seg [|seg' segs]];
          [simpl in Hlen; lia | simpl in Hlen; lia |].
        split; [exact Hlast | simpl; lia].
    + rewrite (IHnone eq_refl). case_bool_decide.
      * split; [discriminate|]. intros e [= <-]. split; [reflexivity | simpl; lia].
      * split; [reflexivity | discriminate].
Qed.

(** On names that have a dot the handler tests the final extension. *)
Lemma accepts_dotted (f : File) (e : jsstring) :
  final_extension (name f) = Some e ->
  accepts f = has_supported_extension f.
Proof.
  intros He. unfold accepts, has_supported_extension, ext_of. rewrite He.
  destruct (split_final_extension (name f)) as [_ H].
  destruct (H e He) as [-> _]. reflexivity.
Qed.

(** On names without a dot it tests the whole name. *)
Lemma accepts_dotless (f : File) :
  final_extension (name f) = None ->
  accepts f = bool_decide (toLowerCase (name f) ∈ supported_types)
  /\ has_supported_extension f = false.
Proof.
  intros He. unfold accepts, has_supported_extension, ext_of. rewrite He.
  destruct (split_final_extension (name f)) as [Hwhole _].
  rewrite (Hwhole He). split; reflexivity.
Qed.

(** C7, evaluated. A file named [txt], which has no extension, is handed
    to the upload handler; among dotted names only the four extensions
    pass, in any letter case. *)
Theorem extensionless_name_is_uploaded :
  final_extension (js "txt") = None
  /\ has_supported_extension {| name := js "txt"; payload := [] |} = false
  /\ handleFiles [{| name := js "txt"; payload := [] |}]
     = [{| name := js "txt"; payload := [] |}]
  /\ map name (handleFiles [{| name := js "a.PDF"; payload := [] |};
                            {| name := js "b.exe"; payload := [] |};
                            {| name := js "c.tar.docx"; payload := [] |};
                            {| name := js "PpTx"; payload := [] |}])
     = [js "a.PDF"; js "c.tar.docx"; js "PpTx"].
Proof. vm_compute. repeat split. Qed.

(** ** How an answer reaches the chat *)

Lemma handleSend_settled_messages (res : Fetched AskData ErrorData) (st : State) :
  messages (handleSend_settled res st) = messages st ++ [ask_reply_message res].
Proof. reflexivity. Qed.

Lemma answer_is_one_message (data : AskData) (st : State) :
  messages (handleSend_settled (Fulfilled data) st)
  = messages st ++ [{| role := js "assistant"; content := answer data;
                       sources := ask_sources data; imageBase64 := None |}].
Proof. reflexivity. Qed.

(** Once settled the continuation is gone: the request gives one update. *)
Lemma settled_once (m m' : Machine) (k : nat) (reply : Reply) (clk : Clock)
    (sent : list Request) :
  step m (Settled k reply clk) = Some (m', sent) ->
  sent = [] /\ inflight m' = delete k (inflight m)
  /\ S (length (inflight m')) = length (inflight m).
Proof.
  unfold step. destruct (inflight m !! k) as [p|] eqn:Hk; simpl; [|discriminate].
  destruct (settle p reply clk (app m)); simpl; [|discriminate].
  intros [= <- <-]. simpl. repeat split.
  rewrite length_delete by (eexists; exact Hk).
  apply lookup_lt_Some in Hk. lia.
Qed.

(** C3, evaluated. Asking [hi] sends one POST to [/qa/ask]; the chat
    shows the question, and then, in a single update when the whole
    response has been read, the complete answer. The answer is never on
    screen in part. *)
Theorem answer_arrives_in_one_piece :
  shown_messages (fst (mount None)) ask_hi
  = [ [];
      [plain_message (js "user") (js "hi")];
      [plain_message (js "user") (js "hi");
       plain_message (js "assistant") (js "Hello world")] ]
  /\ snd <$> session None ask_hi
     = Some [ {| url := API_BASE ++ js "/upload/"; method := "GET";
                 headers := []; body := NoBody |};
              {| url := API_BASE ++ js "/qa/ask"; method := "POST";
                 headers := json_headers;
                 body := JsonBody (JObj [("question", JStr (js "hi"))]) |} ].
Proof. vm_compute. split; reflexivity. Qed.

(** ** The shape of visualization requests *)

Ltac other_endpoint :=
  let H := fresh "Hurl" in
  unfold request_ok; intros H; vm_compute in H; discriminate H.

Lemma silent_well_behaved (st st' : State) :
  imageStyle st' = imageStyle st -> well_behaved st (st', []).
Proof. intros E Hin. simpl. rewrite E. split; [exact Hin | constructor]. Qed.

Lemma handleSend_well_behaved (st : State) : well_behaved st (handleSend st).
Proof.
  unfold handleSend. destruct (send_blocked st).
  - apply silent_well_behaved. reflexivity.
  - intros Hin. split; [exact Hin|].
    apply Forall_singleton. other_endpoint.
Qed.

Lemma handleGenerateImage_well_behaved (customPrompt : option jsstring) (st : State) :
  well_behaved st (handleGenerateImage customPrompt st).
Proof.
  unfold handleGenerateImage. destruct (negb _ || _).
  - apply silent_well_behaved. reflexivity.
  - intros Hin. split.
    + destruct (negb (opt_truthy customPrompt)); exact Hin.
    + apply Forall_singleton. intros _. split; [reflexivity|].
      eexists _, _, _. split; [reflexivity | exact Hin].
Qed.

Lemma handleSubmit_well_behaved (st : State) : well_behaved st (handleSubmit st).
Proof.
  unfold handleSubmit. case_bool_decide.
  - apply handleSend_well_behaved.
  - apply handleGenerateImage_well_behaved.
Qed.

Lemma handleKeyPress_well_behaved (key : jsstring) (shiftKey : bool) (st : State) :
  well_behaved st (handleKeyPress key shiftKey st).
Proof.
  unfold handleKeyPress. destruct (_ && _).
  - apply handleSubmit_well_behaved.
  - apply silent_well_behaved. reflexivity.
Qed.

Lemma handleShowRecommendations_well_behaved (st : State) :
  well_behaved st (handleShowRecommendations st).
Proof.
  unfold handleShowRecommendations. case_bool_decide.
  - apply silent_well_behaved. reflexivity.
  - intros Hin. split; [exact Hin|].
    apply Forall_singleton. case_bool_decide; other_endpoint.
Qed.

Lemma uploads_well_behaved (uploads : list File) (st : State) (issued : Issued) :
  imageStyle (fst (foldl upload_next (st, issued) uploads)) = imageStyle st
  /\ (Forall (fun rp => request_ok (fst rp)) issued ->
      Forall (fun rp => request_ok (fst rp))
             (snd (foldl upload_next (st, issued) uploads))).
Proof.
  revert st issued. induction uploads as [|file rest IH]; intros st issued.
  - simpl. split; [reflexivity | tauto].
  - cbn [foldl]. unfold upload_next at 2. cbn [handleUpload].
    match goal with
    | |- context [foldl upload_next (?s, ?i) rest] =>
      destruct (IH s i) as [Hstyle Hreq]
    end.
    split; [exact Hstyle|].
    intros Hissued. apply Hreq. apply Forall_app. split; [exact Hissued|].
    apply Forall_singleton. other_endpoint.
Qed.

Lemma uploadAll_well_behaved (files : list File) (st : State) :
  well_behaved st (uploadAll files st).
Proof.
  intros Hin. unfold uploadAll.
  destruct (uploads_well_behaved (handleFiles files) st []) as [Hstyle Hreq].
  split.
  - apply (eq_ind_r (fun s => s ∈ image_styles) Hin). exact Hstyle.
  - apply Hreq. constructor.
Qed.

Lemma style_button_well_behaved (st : State) (style : jsstring) :
  style ∈ image_styles -> well_behaved st (setImageStyle (to style) st, []).
Proof. intros Hs _. split; [exact Hs | constructor]. Qed.

Lemma handle_well_behaved (e : Event) (st : State) (out : State * Issued) :
  handle e st = Some out -> well_behaved st out.
Proof.
  destruct e; simpl; unfold when; intros H;
    repeat match type of H with
           | (if ?c then _ else _) = Some _ => destruct c; [|discriminate H]
           | (?x ≫= _) = Some _ => destruct x; simpl in H; [|discriminate H]
           end;
    try discriminate H; injection H as <-;
    try (apply silent_well_behaved; reflexivity).
  - apply style_button_well_behaved. set_solver.
  - apply style_button_well_behaved. set_solver.
  - apply style_button_well_behaved. set_solver.
  - apply handleKeyPress_well_behaved.
  - apply handleSubmit_well_behaved.
  - apply handleShowRecommendations_well_behaved.
  - apply handleGenerateImage_well_behaved.
  - apply uploadAll_well_behaved.
  - intros Hin. split; [exact Hin|]. apply Forall_singleton. other_endpoint.
  - unfold saveEdit. destruct (truthy _); apply silent_well_behaved; reflexivity.
Qed.

Lemma settle_keeps_style (p : Pending) (reply : Reply) (clk : Clock)
    (st st' : State) :
  settle p reply clk st = Some st' -> imageStyle st' = imageStyle st.
Proof.
  destruct p, reply; simpl; try discriminate; intros [= <-];
    destruct res; reflexivity.
Qed.

Lemma step_cases (m : Machine) (e : Event) :
  (exists k reply clk, e = Settled k reply clk)
  \/ step m e
     = '(st', issued) ← handle e (app m);
       Some ({| app := st'; inflight := inflight m ++ map snd issued |},
             map fst issued).
Proof. destruct e; try (right; reflexivity). left. eauto. Qed.

Lemma step_invariant (m m' : Machine) (e : Event) (sent : list Request) :
  step m e = Some (m', sent) ->
  imageStyle (app m) ∈ image_styles ->
  imageStyle (app m') ∈ image_styles /\ Forall request_ok sent.
Proof.
  intros Hstep Hin.
  destruct (step_cases m e) as [(k & reply & clk & ->) | Hui].
  - unfold step in Hstep.
    destruct (inflight m !! k) as [p|]; simpl in Hstep; [|discriminate].
    destruct (settle p reply clk (app m)) as [st'|] eqn:Hs; simpl in Hstep;
      [|discriminate].
    injection Hstep as <- <-. simpl.
    rewrite (settle_keeps_style _ _ _ _ _ Hs). split; [exact Hin | constructor].
  - rewrite Hui in Hstep.
    destruct (handle e (app m)) as [[st' issued]|] eqn:Hh; simpl in Hstep;
      [|discriminate].
    injection Hstep as <- <-.
    destruct (handle_well_behaved _ _ _ Hh Hin) as [Hs Hr].
    split; [exact Hs|]. apply Forall_fmap. exact Hr.
Qed.

Lemma run_invariant (events : list Event) (m m' : Machine) (sent : list Request) :
  run m events = Some (m', sent) ->
  imageStyle (app m) ∈ image_styles ->
  imageStyle (app m') ∈ image_styles /\ Forall request_ok sent.
Proof.
  revert m m' sent. induction events as [|e rest IH]; intros m m' sent; simpl.
  - intros [= <- <-] Hin. split; [exact Hin | constructor].
  - destruct (step m e) as [[m1 sent1]|] eqn:Hstep; simpl; [|discriminate].
    destruct (run m1 rest) as [[m2 sent2]|] eqn:Hrun; simpl; [|discriminate].
    intros [= <- <-] Hin.
    destruct (step_invariant _ _ _ _ Hstep Hin) as [Hin1 Hsent1].
    destruct (IH _ _ _ Hrun Hin1) as [Hin2 Hsent2].
    split; [exact Hin2 | apply Forall_app; split; assumption].
Qed.

Lemma mount_style (savedNames : option (gmap jsstring jsstring)) :
  imageStyle (app (fst (mount savedNames))) = js "mindmap"
  /\ Forall request_ok (snd (mount savedNames)).
Proof.
  split; [destruct savedNames; reflexivity|].
  simpl. apply Forall_singleton. other_endpoint.
Qed.

(** C4. In every session (mount, then any sequence of user actions and
    settled requests) the image style stays one of [mindmap], [diagram],
    [educational], and every request sent to the generation endpoint is a
    POST whose body is exactly [prompt], [style], [conversation_history],
    [aspect_ratio], with the style in that set and the aspect ratio
    [16:9]. *)
Theorem visualization_requests_shaped
    (savedNames : option (gmap jsstring jsstring)) (events : list Event)
    (m : Machine) (sent : list Request) :
  session savedNames events = Some (m, sent) ->
  imageStyle (app m) ∈ image_styles
  /\ (forall r, r ∈ sent -> url r = visualization_url -> visualization_shaped r).
Proof.
  unfold session. destruct (mount savedNames) as [m0 sent0] eqn:Hm.
  destruct (run m0 events) as [[m1 sent1]|] eqn:Hrun; simpl; [|discriminate].
  intros [= <- <-].
  destruct (mount_style savedNames) as [Hstyle Hsent0]. rewrite Hm in *.
  simpl in *.
  assert (Hin : imageStyle (app m0) ∈ image_styles).
  { rewrite Hstyle. set_solver. }
  destruct (run_invariant _ _ _ _ Hrun Hin) as [Hin1 Hsent1].
  split; [exact Hin1|].
  intros r Hr. apply elem_of_app in Hr.
  pose proof (proj1 (Forall_forall _ _) Hsent0) as H0.
  pose proof (proj1 (Forall_forall _ _) Hsent1) as H1.
  destruct Hr as [Hr|Hr]; [exact (H0 r Hr) | exact (H1 r Hr)].
Qed.

Lemma visualization_requests_shaped_witness :
  imageStyle (app (fst diagram_run)) ∈ image_styles
  /\ (forall r, r ∈ snd diagram_run ->
        url r = visualization_url -> visualization_shaped r).
Proof.
  apply (visualization_requests_shaped None diagram_events
           (fst diagram_run) (snd diagram_run)).
  vm_compute. reflexivity.
Defined.

Example diagram_session_requests :
  snd diagram_run
  = [ {| url := API_BASE ++ js "/upload/"; method := "GET"; headers := [];
         body := NoBody |};
      diagram_request ].
Proof. vm_compute. reflexivity. Qed.

(** In chat mode the style buttons are not rendered. *)
Example style_button_hidden_in_chat_mode :
  handle ClickStyleDiagram initial_state = None.
Proof. reflexivity. Qed.

(** * Further properties of the components *)

(** ** Whitespace and [trim] *)

Lemma trimStart_blank (s : jsstring) :
  trimStart s = [] <-> Forall (fun c => is_whitespace c = true) s.
Proof.
  induction s as [|c r IH]; simpl.
  - split; [constructor | reflexivity].
  - destruct (is_whitespace c) eqn:E.
    + rewrite IH. split; [intros H; constructor; assumption|].
      intros H. apply Forall_cons in H. tauto.
    + split; [discriminate|]. intros H. apply Forall_cons in H.
      destruct H as [H _]. congruence.
Qed.

Lemma trimStart_head (s : jsstring) (c : N) :
  head (trimStart s) = Some c -> is_whitespace c = false.
Proof.
  induction s as [|d r IH]; simpl; [discriminate|].
  destruct (is_whitespace d) eqn:E; [exact IH|].
  simpl. intros [= <-]. exact E.
Qed.

Lemma trimStart_suffix (s : jsstring) :
  exists blanks, s = blanks ++ trimStart s
                 /\ Forall (fun c => is_whitespace c = true) blanks.
Proof.
  induction s as [|d r (blanks & Heq & Hb)]; simpl.
  - exists []. split; [reflexivity | constructor].
  - destruct (is_whitespace d) eqn:E.
    + exists (d :: blanks). split; [simpl; congruence | constructor; assumption].
    + exists []. split; [reflexivity | constructor].
Qed.

Lemma trimStart_fixed (s : jsstring) :
  (forall c, head s = Some c -> is_whitespace c = false) -> trimStart s = s.
Proof.
  destruct s as [|c r]; [reflexivity|]. simpl. intros H.
  rewrite (H c eq_refl). reflexivity.
Qed.

Lemma trim_blank (s : jsstring) :
  trim s = [] <-> Forall (fun c => is_whitespace c = true) s.
Proof.
  unfold trim, trimEnd. split.
  - intros H. apply trimStart_blank.
    apply (f_equal reverse) in H. rewrite reverse_involutive in H.
    change (reverse []) with (@nil N) in H.
    apply trimStart_blank, Forall_reverse in H.
    rewrite ?reverse_involutive in H.
    destruct (trimStart s) as [|c r] eqn:E; [reflexivity|].
    apply Forall_cons in H. destruct H as [H _].
    assert (is_whitespace c = false) by (apply (trimStart_head s); rewrite E; reflexivity).
    congruence.
  - intros H. apply trimStart_blank in H. rewrite H. reflexivity.
Qed.

Lemma trim_last (s : jsstring) (c : N) :
  last (trim s) = Some c -> is_whitespace c = false.
Proof.
  unfold trim, trimEnd. rewrite last_reverse. apply trimStart_head.
Qed.

Lemma trim_head (s : jsstring) (c : N) :
  head (trim s) = Some c -> is_whitespace c = false.
Proof.
  unfold trim, trimEnd. rewrite head_reverse.
  destruct (trimStart_suffix (reverse (trimStart s))) as (blanks & Heq & _).
  intros Hlast.
  assert (Hl : last (reverse (trimStart s)) = Some c).
  { rewrite Heq, last_app, Hlast. reflexivity. }
  rewrite last_reverse in Hl. exact (trimStart_head s c Hl).
Qed.

Lemma trim_idempotent (s : jsstring) : trim (trim s) = trim s.
Proof.
  unfold trim at 1. rewrite (trimStart_fixed (trim s)) by apply trim_head.
  unfold trimEnd. rewrite trimStart_fixed.
  - apply reverse_involutive.
  - intros c. rewrite head_reverse. apply trim_last.
Qed.

(** ** The conversation *)

#[local] Arguments js : simpl never.

(** X1. Sending is refused exactly when the input consists of whitespace
    only (the empty input included) or a generation is loading; the send
    button is disabled in exactly the same cases. *)
Theorem send_refused_iff_blank_or_loading (st : State) :
  (send_blocked st = true
   <-> Forall (fun c => is_whitespace c = true) (inputValue st)
       \/ isLoading st = true)
  /\ (send_button_disabled st = true
      <-> Forall (fun c => is_whitespace c = true) (inputValue st)
          \/ isLoading st = true)
  /\ (handleSend st = (st, [])
      <-> Forall (fun c => is_whitespace c = true) (inputValue st)
          \/ isLoading st = true).
Proof.
  assert (H : send_blocked st = true
              <-> Forall (fun c => is_whitespace c = true) (inputValue st)
                  \/ isLoading st = true).
  { rewrite send_blocked_iff, trim_blank. reflexivity. }
  split; [exact H|]. split; [exact H|].
  rewrite <- H. unfold handleSend.
  destruct (send_blocked st); split; try reflexivity; discriminate.
Qed.



(** ** Uploads *)

Lemma uploads_fold (uploads : list File) (st : State) (issued : Issued) :
  foldl upload_next (st, issued) uploads
  = (match uploads with
     | [] => st
     | _ => setIsUploading (to true) st
     end,
     issued ++ map (fun f => (upload_request f, AwaitUpload f)) uploads).
Proof.
  revert st issued. induction uploads as [|f rest IH]; intros st issued.
  - simpl. rewrite app_nil_r. reflexivity.
  - cbn [foldl]. unfold upload_next at 2. cbn [handleUpload].
    change [({| url := API_BASE ++ js "/upload/"; method := "POST";
                headers := []; body := FormData f |}, AwaitUpload f)]
      with [(upload_request f, AwaitUpload f)].
    rewrite IH, <- app_assoc. destruct rest; reflexivity.
Qed.

(** X3. Choosing or dropping files sends one POST to [/upload/] per file
    that passes the extension test, in the order of the selection, each
    carrying its file; the files that do not pass send nothing, and only
    [isUploading] changes, raised when at least one file passes. *)
Theorem uploadAll_one_request_per_accepted_file (files : list File) (st : State) :
  map fst (snd (uploadAll files st)) = map upload_request (handleFiles files)
  /\ map snd (snd (uploadAll files st)) = map AwaitUpload (handleFiles files)
  /\ fst (uploadAll files st)
     = (if bool_decide (handleFiles files = []) then st
        else setIsUploading (to true) st)
  /\ handleFiles files = filter (fun f => accepts f = true) files.
Proof.
  unfold uploadAll. rewrite uploads_fold. simpl.
  rewrite !map_map. simpl.
  split; [reflexivity|]. split; [reflexivity|]. split.
  - destruct (handleFiles files); reflexivity.
  - apply handleFiles_filter.
Qed.

Lemma lower_unit_dot (c : N) : lower_unit c = DOT <-> c = DOT.
Proof.
  unfold lower_unit, DOT.
  destruct ((65 <=? c)%N && (c <=? 90)%N) eqn:E; [|reflexivity].
  apply andb_true_iff in E. destruct E as [E1 E2].
  apply N.leb_le in E1, E2. split; intros H; lia.
Qed.

Lemma lower_unit_idempotent (c : N) : lower_unit (lower_unit c) = lower_unit c.
Proof.
  unfold lower_unit.
  destruct ((65 <=? c)%N && (c <=? 90)%N) eqn:E; [|rewrite E; reflexivity].
  apply andb_true_iff in E. destruct E as [E1 E2].
  apply N.leb_le in E1, E2.
  destruct ((65 <=? c + 32)%N && (c + 32 <=? 90)%N) eqn:E'; [|reflexivity].
  apply andb_true_iff in E'. destruct E' as [_ E4]. apply N.leb_le in E4. lia.
Qed.

Lemma split_toLowerCase (s : jsstring) :
  split DOT (toLowerCase s) = map toLowerCase (split DOT s).
Proof.
  induction s as [|c r IH]; [reflexivity|].
  cbn [toLowerCase map split]. fold (toLowerCase r).
  pose proof (lower_unit_dot c) as Hdot.
  case_bool_decide as Hl; case_bool_decide as Hc; try tauto.
  - rewrite IH. reflexivity.
  - rewrite IH. destruct (split DOT r); reflexivity.
Qed.

(** Folding the capitals A to Z of a name to small letters does not
    change whether the file is accepted. *)
Lemma accepts_folded (f : File) :
  accepts f = accepts {| name := toLowerCase (name f); payload := payload f |}.
Proof.
  unfold accepts, ext_of. simpl. rewrite split_toLowerCase.
  rewrite fmap_last, <- option_fmap_compose.
  destruct (last (split DOT (name f))) as [seg|]; [|reflexivity]. simpl.
  replace (toLowerCase (toLowerCase seg)) with (toLowerCase seg); [reflexivity|].
  unfold toLowerCase. rewrite map_map. apply map_ext. intros c.
  symmetry. apply lower_unit_idempotent.
Qed.

Lemma same_letter_lower (c d : N) : same_letter c d -> lower_unit c = lower_unit d.
Proof.
  unfold same_letter, lower_unit. intros [->|[[[H1 H2] ->]|[[H1 H2] ->]]].
  - reflexivity.
  - rewrite (proj2 (andb_true_iff _ _)) by (split; apply N.leb_le; lia).
    destruct ((65 <=? c + 32)%N && (c + 32 <=? 90)%N) eqn:E; [|reflexivity].
    apply andb_true_iff in E. destruct E as [_ E]. apply N.leb_le in E. lia.
  - rewrite (proj2 (andb_true_iff (65 <=? d)%N (d <=? 90)%N))
      by (split; apply N.leb_le; lia).
    destruct ((65 <=? d + 32)%N && (d + 32 <=? 90)%N) eqn:E; [|reflexivity].
    apply andb_true_iff in E. destruct E as [_ E]. apply N.leb_le in E. lia.
Qed.

Lemma same_up_to_case_lower (s t : jsstring) :
  same_up_to_case s t -> toLowerCase s = toLowerCase t.
Proof.
  induction 1 as [|c d s t Hcd _ IH]; [reflexivity|].
  cbn [toLowerCase map]. fold (toLowerCase s) (toLowerCase t).
  rewrite (same_letter_lower c d Hcd), IH. reflexivity.
Qed.

(** X4. The extension test does not depend on the case of the letters A
    to Z: two files whose names differ only in the case of such letters
    are both handed to the upload handler or both left out. *)
Theorem extension_test_ignores_ascii_case (f1 f2 : File) :
  same_up_to_case (name f1) (name f2) ->
  accepts f1 = accepts f2
  /\ (handleFiles [f1] = [f1] <-> handleFiles [f2] = [f2])
  /\ (handleFiles [f1] = [] <-> handleFiles [f2] = []).
Proof.
  intros Hsame.
  assert (Ha : accepts f1 = accepts f2).
  { rewrite (accepts_folded f1), (accepts_folded f2).
    rewrite (same_up_to_case_lower _ _ Hsame). reflexivity. }
  split; [exact Ha|].
  rewrite !handleFiles_cons. cbn [handleFiles]. rewrite Ha.
  destruct (accepts f2); split; split; intros H;
    try reflexivity; discriminate H.
Qed.

Lemma extension_test_ignores_ascii_case_witness :
  accepts capital_notes = accepts small_notes
  /\ (handleFiles [capital_notes] = [capital_notes]
      <-> handleFiles [small_notes] = [small_notes])
  /\ (handleFiles [capital_notes] = [] <-> handleFiles [small_notes] = []).
Proof.
  apply (extension_test_ignores_ascii_case capital_notes small_notes).
  repeat (constructor; [first [left; reflexivity
                              | right; left; split; [split|]; vm_compute;
                                first [reflexivity | discriminate]
                              | right; right; split; [split|]; vm_compute;
                                first [reflexivity | discriminate]]|]).
  constructor.
Defined.

Example capital_and_small_notes_accepted :
  handleFiles [capital_notes; small_notes] = [capital_notes; small_notes].
Proof. vm_compute. reflexivity. Qed.

Lemma final_extension_dotted (s : jsstring) :
  DOT ∈ s <-> is_Some (final_extension s).
Proof.
  induction s as [|c r IH]; simpl.
  - split; [intros H; apply elem_of_nil in H; contradiction|].
    intros [e He]. discriminate.
  - rewrite elem_of_cons, IH.
    destruct (final_extension r) as [e|].
    + split; [eauto | right; eauto].
    + case_bool_decide as Hc.
      * split; [eauto | left; congruence].
      * split; [|intros [e He]; discriminate].
        intros [H|[e He]]; [congruence | discriminate].
Qed.

(** X5. On file names that contain a dot, the upload filter is the filter
    on the lower-cased final extension: exactly the files whose
    extension is [pdf], [pptx], [docx] or [txt] are handed on, in order. *)
Theorem dotted_names_filtered_by_extension (files : list File) :
  Forall dotted files ->
  handleFiles files = filter (fun f => has_supported_extension f = true) files.
Proof.
  intros Hd. rewrite handleFiles_filter.
  induction Hd as [|f rest Hf Hrest IH]; [reflexivity|].
  apply final_extension_dotted in Hf. destruct Hf as [e He].
  pose proof (accepts_dotted f e He) as Ha.
  destruct (accepts f) eqn:E.
  - rewrite !filter_cons_True by congruence. rewrite IH. reflexivity.
  - rewrite !filter_cons_False by congruence. exact IH.
Qed.

Lemma dotted_names_filtered_by_extension_witness :
  handleFiles mixed_selection
  = filter (fun f => has_supported_extension f = true) mixed_selection.
Proof.
  apply (dotted_names_filtered_by_extension mixed_selection).
  apply (bool_decide_unpack _). vm_compute. exact I.
Defined.

(** ** Invariants of the conversation *)

Lemma chat_effect_unchanged (st st' : State) :
  messages st' = messages st -> isLoading st' = isLoading st ->
  imageHistory st' = imageHistory st -> chat_effect st (st', []).
Proof. intros. apply chat_idle; auto. Qed.

Lemma handleSend_chat_effect (st : State) : chat_effect st (handleSend st).
Proof.
  unfold handleSend. destruct (send_blocked st) eqn:E.
  - apply chat_effect_unchanged; reflexivity.
  - apply chat_started with (c := inputValue st); try reflexivity.
    unfold send_blocked in E. apply orb_false_iff in E. tauto.
Qed.

Lemma handleGenerateImage_chat_effect (custom : option jsstring) (st : State) :
  chat_effect st (handleGenerateImage custom st).
Proof.
  unfold handleGenerateImage. destruct (negb _ || isLoading st) eqn:E.
  - apply chat_effect_unchanged; reflexivity.
  - apply orb_false_iff in E. destruct E as [_ E].
    eapply chat_started; try reflexivity; try exact E;
      destruct (negb (opt_truthy custom)); reflexivity.
Qed.

Lemma handleSubmit_chat_effect (st : State) : chat_effect st (handleSubmit st).
Proof.
  unfold handleSubmit. case_bool_decide.
  - apply handleSend_chat_effect.
  - apply handleGenerateImage_chat_effect.
Qed.

Lemma handle_chat_effect (e : Event) (st : State) (out : State * Issued) :
  handle e st = Some out -> chat_effect st out.
Proof.
  destruct e; cbn [handle]; unfold when; intros H;
    repeat match type of H with
           | (if ?c then _ else _) = Some _ => destruct c; [|discriminate H]
           | (?x ≫= _) = Some _ => destruct x; cbn [mbind option_bind] in H;
                                    [|discriminate H]
           end;
    try discriminate H; injection H as <-;
    try (apply chat_effect_unchanged; reflexivity).
  - unfold handleKeyPress. destruct (_ && _).
    + apply handleSubmit_chat_effect.
    + apply chat_effect_unchanged; reflexivity.
  - apply handleSubmit_chat_effect.
  - unfold handleShowRecommendations. case_bool_decide.
    + apply chat_effect_unchanged; reflexivity.
    + apply chat_idle; try reflexivity. apply Forall_singleton. reflexivity.
  - apply handleGenerateImage_chat_effect.
  - unfold uploadAll. rewrite uploads_fold. cbn [app].
    apply chat_idle; try (destruct (handleFiles files); reflexivity).
    apply Forall_fmap, Forall_forall. reflexivity.
  - apply chat_idle; try reflexivity. apply Forall_singleton. reflexivity.
  - unfold saveEdit. destruct (truthy _); apply chat_effect_unchanged; reflexivity.
Qed.

Lemma settle_chat_effect (p : Pending) (reply : Reply) (clk : Clock)
    (st st' : State) :
  settle p reply clk st = Some st' ->
  imageHistory st `prefix_of` imageHistory st'
  /\ if is_generation p
     then isLoading st' = false
          /\ exists msg, messages st' = messages st ++ [msg]
                         /\ role msg = js "assistant"
     else isLoading st' = isLoading st /\ messages st' = messages st.
Proof.
  destruct p, reply; simpl; try discriminate; intros [= <-];
    destruct res; simpl;
    (split; [first [reflexivity | apply prefix_app_r; reflexivity]|]);
    try (split; reflexivity);
    (split; [reflexivity | eexists; split; reflexivity]).
Qed.

Lemma pending_count_app (kind : Pending -> bool) (l1 l2 : list Pending) :
  pending_count kind (l1 ++ l2) = pending_count kind l1 + pending_count kind l2.
Proof. unfold pending_count. rewrite filter_app, length_app. reflexivity. Qed.

Lemma pending_count_none (kind : Pending -> bool) (l : list Pending) :
  Forall (fun p => kind p = false) l -> pending_count kind l = 0.
Proof.
  unfold pending_count. induction 1 as [|p l Hp Hl IH]; [reflexivity|].
  rewrite filter_cons_False by congruence. exact IH.
Qed.

Lemma pending_count_delete (kind : Pending -> bool) (l : list Pending) (k : nat)
    (p : Pending) :
  l !! k = Some p ->
  pending_count kind l
  = (if kind p then 1 else 0) + pending_count kind (delete k l).
Proof.
  unfold pending_count. revert k. induction l as [|q l IH]; intros k Hk.
  - discriminate.
  - destruct k as [|k]; simpl in Hk.
    + injection Hk as ->. cbn [delete list_delete].
      destruct (kind p) eqn:E.
      * rewrite filter_cons_True by exact E. reflexivity.
      * rewrite filter_cons_False by congruence. reflexivity.
    + cbn [delete list_delete]. specialize (IH k Hk).
      destruct (kind q) eqn:E.
      * rewrite !filter_cons_True by exact E. cbn [length]. rewrite IH.
        destruct (kind p); reflexivity.
      * rewrite !filter_cons_False by congruence. exact IH.
Qed.

Lemma alternates_snoc (msgs : list Message) (msg : Message) :
  alternates msgs -> role msg = role_at (length msgs) -> alternates (msgs ++ [msg]).
Proof.
  intros Halt Hrole i m Hi.
  destruct (decide (i < length msgs)) as [Hlt|Hge].
  - rewrite lookup_app_l in Hi by exact Hlt. exact (Halt i m Hi).
  - rewrite lookup_app_r in Hi by lia.
    destruct (i - length msgs) as [|n] eqn:E; simpl in Hi; [|discriminate].
    injection Hi as <-. replace i with (length msgs) by lia. exact Hrole.
Qed.

Lemma step_chat_invariant (m m' : Machine) (e : Event) (sent : list Request) :
  step m e = Some (m', sent) -> chat_invariant m -> chat_invariant m'.
Proof.
  intros Hstep [Hroles Hload Hcount].
  destruct (step_cases m e) as [(k & reply & clk & ->) | Hui].
  - unfold step in Hstep.
    destruct (inflight m !! k) as [p|] eqn:Hk; simpl in Hstep; [|discriminate].
    destruct (settle p reply clk (app m)) as [st'|] eqn:Hs; simpl in Hstep;
      [|discriminate].
    injection Hstep as <- <-.
    destruct (settle_chat_effect _ _ _ _ _ Hs) as [_ Heff].
    rewrite (pending_count_delete _ _ _ _ Hk) in Hcount.
    revert Heff Hcount. destruct (is_generation p); intros Heff Hcount.
    + destruct Heff as (Hl & msg & Hm & Hr).
      destruct (isLoading (app m)) eqn:El; [|lia].
      split; simpl.
      * rewrite Hm. apply alternates_snoc; [exact Hroles|].
        rewrite Hr. unfold role_at. rewrite <- Nat.negb_odd, <- Hload. reflexivity.
      * rewrite Hl, Hm, length_app, Nat.add_1_r, Nat.odd_succ, <- Nat.negb_odd,
          <- Hload. reflexivity.
      * rewrite Hl. lia.
    + destruct Heff as (Hl & Hm). split; simpl.
      * rewrite Hm. exact Hroles.
      * rewrite Hl, Hm. exact Hload.
      * rewrite Hl. exact Hcount.
  - rewrite Hui in Hstep.
    destruct (handle e (app m)) as [[st' issued]|] eqn:Hh; simpl in Hstep;
      [|discriminate].
    injection Hstep as <- <-.
    pose proof (handle_chat_effect _ _ _ Hh) as Heff.
    inversion Heff as [st1 issued1 Hm Hl _ Hnone | st1 r p c Hidle Hm Hl _ Hgen];
      subst; split; simpl.
    + rewrite Hm. exact Hroles.
    + rewrite Hl, Hm. exact Hload.
    + rewrite pending_count_app, Hl, Hcount.
      rewrite (pending_count_none is_generation (map snd issued)); [lia|].
      apply Forall_fmap. exact Hnone.
    + rewrite Hm. apply alternates_snoc; [exact Hroles|].
      unfold role_at. rewrite <- Nat.negb_odd, <- Hload, Hidle. reflexivity.
    + rewrite Hl, Hm, length_app, Nat.add_1_r, Nat.odd_succ, <- Nat.negb_odd,
        <- Hload, Hidle. reflexivity.
    + rewrite pending_count_app, Hl, Hcount, Hidle. simpl.
      unfold pending_count. rewrite filter_cons_True by exact Hgen. reflexivity.
Qed.

(** Any property kept by every step holds after every session. *)
Lemma session_invariant (I : Machine -> Prop)
    (savedNames : option (gmap jsstring jsstring)) (events : list Event)
    (m : Machine) (sent : list Request) :
  I (fst (mount savedNames)) ->
  (forall m1 m2 e sent1, step m1 e = Some (m2, sent1) -> I m1 -> I m2) ->
  session savedNames events = Some (m, sent) ->
  I m.
Proof.
  intros Hinit Hstep. unfold session.
  destruct (mount savedNames) as [m0 sent0]. simpl in Hinit.
  destruct (run m0 events) as [[m1 sent1]|] eqn:Hrun; simpl; [|discriminate].
  intros [= <- _]. clear sent sent0.
  revert m0 m1 sent1 Hinit Hrun.
  induction events as [|e rest IH]; intros m0 m1 sent1 Hinit; simpl.
  - intros [= <- _]. exact Hinit.
  - destruct (step m0 e) as [[m2 sent2]|] eqn:Hs; simpl; [|discriminate].
    destruct (run m2 rest) as [[m3 sent3]|] eqn:Hr; simpl; [|discriminate].
    intros [= <- _]. eapply IH; [|exact Hr]. eapply Hstep; eassumption.
Qed.

Lemma mount_chat_invariant (savedNames : option (gmap jsstring jsstring)) :
  chat_invariant (fst (mount savedNames)).
Proof.
  destruct savedNames; split; simpl; try reflexivity;
    intros i msg Hi; discriminate Hi.
Qed.

(** X6. In every session the conversation alternates: the messages at
    even positions have the role [user], those at odd positions the role
    [assistant], and [isLoading] holds exactly when the last message is a
    user message still waiting for its reply (the length is odd). *)
Theorem conversation_alternates
    (savedNames : option (gmap jsstring jsstring)) (events : list Event)
    (m : Machine) (sent : list Request) :
  session savedNames events = Some (m, sent) ->
  (forall i msg, messages (app m) !! i = Some msg ->
     role msg = if Nat.even i then js "user" else js "assistant")
  /\ isLoading (app m) = Nat.odd (length (messages (app m))).
Proof.
  intros Hs.
  destruct (session_invariant chat_invariant savedNames events m sent
              (mount_chat_invariant savedNames) step_chat_invariant Hs)
    as [Hroles Hload _].
  split; [exact Hroles | exact Hload].
Qed.

Lemma conversation_alternates_witness :
  (forall i msg, messages (app (fst ask_hi_run)) !! i = Some msg ->
     role msg = if Nat.even i then js "user" else js "assistant")
  /\ isLoading (app (fst ask_hi_run))
     = Nat.odd (length (messages (app (fst ask_hi_run)))).
Proof.
  apply (conversation_alternates None ask_hi (fst ask_hi_run) (snd ask_hi_run)).
  vm_compute. reflexivity.
Defined.

(** X7. In every session at most one question or visualization request
    is in flight, and [isLoading] (the spinner, the disabled send button)
    holds exactly while one is. *)
Theorem one_generation_in_flight
    (savedNames : option (gmap jsstring jsstring)) (events : list Event)
    (m : Machine) (sent : list Request) :
  session savedNames events = Some (m, sent) ->
  pending_count is_generation (inflight m) <= 1
  /\ (isLoading (app m) = true <-> pending_count is_generation (inflight m) = 1).
Proof.
  intros Hs.
  destruct (session_invariant chat_invariant savedNames events m sent
              (mount_chat_invariant savedNames) step_chat_invariant Hs)
    as [_ _ Hcount].
  rewrite Hcount. destruct (isLoading (app m)); split; try lia; split;
    congruence.
Qed.

Lemma one_generation_in_flight_witness :
  pending_count is_generation (inflight (fst diagram_pending_run)) <= 1
  /\ (isLoading (app (fst diagram_pending_run)) = true
      <-> pending_count is_generation (inflight (fst diagram_pending_run)) = 1).
Proof.
  apply (one_generation_in_flight None diagram_events
           (fst diagram_pending_run) (snd diagram_pending_run)).
  vm_compute. reflexivity.
Defined.

Lemma step_append_only (m m' : Machine) (e : Event) (sent : list Request) :
  step m e = Some (m', sent) ->
  messages (app m) `prefix_of` messages (app m')
  /\ imageHistory (app m) `prefix_of` imageHistory (app m').
Proof.
  intros Hstep.
  destruct (step_cases m e) as [(k & reply & clk & ->) | Hui].
  - unfold step in Hstep.
    destruct (inflight m !! k) as [p|] eqn:Hk; simpl in Hstep; [|discriminate].
    destruct (settle p reply clk (app m)) as [st'|] eqn:Hs; simpl in Hstep;
      [|discriminate].
    injection Hstep as <- <-. simpl.
    destruct (settle_chat_effect _ _ _ _ _ Hs) as [Hh Heff].
    split; [|exact Hh].
    destruct (is_generation p).
    + destruct Heff as (_ & msg & -> & _). apply prefix_app_r. reflexivity.
    + destruct Heff as (_ & ->). reflexivity.
  - rewrite Hui in Hstep.
    destruct (handle e (app m)) as [[st' issued]|] eqn:Hh; simpl in Hstep;
      [|discriminate].
    injection Hstep as <- <-. simpl.
    pose proof (handle_chat_effect _ _ _ Hh) as Heff.
    inversion Heff as [st1 issued1 Hm _ Hi _ | st1 r p c _ Hm _ Hi _]; subst;
      rewrite Hm, Hi; split; try reflexivity.
    apply prefix_app_r. reflexivity.
Qed.

(** X8. The conversation and the image history are append-only: whatever
    the events of a run, the messages and the image entries at its start
    are still there at its end, unchanged and in the same positions. *)
Theorem conversation_is_append_only (events : list Event) (m m' : Machine)
    (sent : list Request) :
  run m events = Some (m', sent) ->
  messages (app m) `prefix_of` messages (app m')
  /\ imageHistory (app m) `prefix_of` imageHistory (app m').
Proof.
  revert m m' sent. induction events as [|e rest IH]; intros m m' sent; simpl.
  - intros [= <- _]. split; reflexivity.
  - destruct (step m e) as [[m1 sent1]|] eqn:Hs; simpl; [|discriminate].
    destruct (run m1 rest) as [[m2 sent2]|] eqn:Hr; simpl; [|discriminate].
    intros [= <- _].
    destruct (step_append_only _ _ _ _ Hs) as [Hm1 Hi1].
    destruct (IH _ _ _ Hr) as [Hm2 Hi2].
    split; etransitivity; eassumption.
Qed.

Lemma conversation_is_append_only_witness :
  messages (app seasoned_machine) `prefix_of` messages (app (fst seasoned_run))
  /\ imageHistory (app seasoned_machine)
       `prefix_of` imageHistory (app (fst seasoned_run)).
Proof.
  apply (conversation_is_append_only seasoned_events seasoned_machine
           (fst seasoned_run) (snd seasoned_run)).
  vm_compute. reflexivity.
Defined.

(** The sample run starts with two messages and one image and ends with
    six messages and two images, the first ones being those of the
    start. *)
Example seasoned_run_grows :
  length (messages (app seasoned_machine)) = 2
  /\ length (imageHistory (app seasoned_machine)) = 1
  /\ length (messages (app (fst seasoned_run))) = 6
  /\ length (imageHistory (app (fst seasoned_run))) = 2
  /\ take 2 (messages (app (fst seasoned_run))) = messages (app seasoned_machine)
  /\ take 1 (imageHistory (app (fst seasoned_run)))
     = imageHistory (app seasoned_machine).
Proof. vm_compute. repeat split. Qed.

(** ** Loading recommendations *)

Ltac split_ifs :=
  repeat match goal with
         | |- context [if ?c then _ else _] => destruct c
         end.

Lemma handleSubmit_rec_effect (st : State) : rec_effect st (handleSubmit st).
Proof.
  unfold handleSubmit, handleSend, handleGenerateImage. split_ifs;
    apply rec_idle; try reflexivity; repeat constructor.
Qed.

Lemma handle_rec_effect (e : Event) (st : State) (out : State * Issued) :
  handle e st = Some out -> rec_effect st out.
Proof.
  destruct e; cbn [handle]; unfold when; intros H;
    repeat match type of H with
           | (if ?c then _ else _) = Some _ =>
             destruct c eqn:?; [|discriminate H]
           | (?x ≫= _) = Some _ => destruct x; cbn [mbind option_bind] in H;
                                    [|discriminate H]
           end;
    try discriminate H; injection H as <-;
    try (apply rec_idle; [reflexivity | solve [repeat constructor]]).
  - unfold handleKeyPress. destruct (_ && _).
    + apply handleSubmit_rec_effect.
    + apply rec_idle; [reflexivity | constructor].
  - apply handleSubmit_rec_effect.
  - unfold handleShowRecommendations.
    destruct (bool_decide (length (documents st) = 0)).
    + apply rec_idle; [reflexivity | constructor].
    + apply rec_started; [|reflexivity].
      match goal with
      | Hg : _ && negb (isLoadingRecommendations st) = true |- _ =>
        apply andb_true_iff in Hg; destruct Hg as [_ Hg];
          apply negb_true_iff in Hg; exact Hg
      end.
  - unfold onGenerateFromContent, handleGenerateImage. split_ifs;
      apply rec_idle; try reflexivity; repeat constructor.
  - unfold uploadAll. rewrite uploads_fold. cbn [app].
    apply rec_idle; [destruct (handleFiles files); reflexivity|].
    apply Forall_fmap, Forall_forall. reflexivity.
  - unfold saveEdit. destruct (truthy _); apply rec_idle;
      try reflexivity; constructor.
Qed.

Lemma settle_rec_effect (p : Pending) (reply : Reply) (clk : Clock)
    (st st' : State) :
  settle p reply clk st = Some st' ->
  isLoadingRecommendations st'
  = if is_recommendation p then false else isLoadingRecommendations st.
Proof.
  destruct p, reply; simpl; try discriminate; intros [= <-];
    destruct res; reflexivity.
Qed.

Lemma step_rec_invariant (m m' : Machine) (e : Event) (sent : list Request) :
  step m e = Some (m', sent) ->
  pending_count is_recommendation (inflight m)
  = (if isLoadingRecommendations (app m) then 1 else 0) ->
  pending_count is_recommendation (inflight m')
  = (if isLoadingRecommendations (app m') then 1 else 0).
Proof.
  intros Hstep Hcount.
  destruct (step_cases m e) as [(k & reply & clk & ->) | Hui].
  - unfold step in Hstep.
    destruct (inflight m !! k) as [p|] eqn:Hk; simpl in Hstep; [|discriminate].
    destruct (settle p reply clk (app m)) as [st'|] eqn:Hs; simpl in Hstep;
      [|discriminate].
    injection Hstep as <- <-. simpl.
    rewrite (settle_rec_effect _ _ _ _ _ Hs).
    rewrite (pending_count_delete _ _ _ _ Hk) in Hcount.
    destruct (is_recommendation p); [|exact Hcount].
    destruct (isLoadingRecommendations (app m)); lia.
  - rewrite Hui in Hstep.
    destruct (handle e (app m)) as [[st' issued]|] eqn:Hh; simpl in Hstep;
      [|discriminate].
    injection Hstep as <- <-. simpl.
    pose proof (handle_rec_effect _ _ _ Hh) as Heff.
    inversion Heff as [st1 issued1 Hl Hnone | st1 r Hidle Hl]; subst;
      rewrite pending_count_app, Hl, Hcount.
    + rewrite (pending_count_none is_recommendation (map snd issued)); [lia|].
      apply Forall_fmap. exact Hnone.
    + rewrite Hidle. reflexivity.
Qed.

(** X9. In every session at most one recommendation request is in
    flight, and [isLoadingRecommendations] (the hourglass on the disabled
    recommend button) holds exactly while one is. *)
Theorem one_recommendation_in_flight
    (savedNames : option (gmap jsstring jsstring)) (events : list Event)
    (m : Machine) (sent : list Request) :
  session savedNames events = Some (m, sent) ->
  pending_count is_recommendation (inflight m) <= 1
  /\ (isLoadingRecommendations (app m) = true
      <-> pending_count is_recommendation (inflight m) = 1).
Proof.
  intros Hs.
  assert (Hcount : pending_count is_recommendation (inflight m)
                   = if isLoadingRecommendations (app m) then 1 else 0).
  { apply (session_invariant
             (fun m => pending_count is_recommendation (inflight m)
                       = if isLoadingRecommendations (app m) then 1 else 0)
             savedNames events m sent); [|exact step_rec_invariant | exact Hs].
    destruct savedNames; reflexivity. }
  rewrite Hcount. destruct (isLoadingRecommendations (app m)); split; try lia;
    split; congruence.
Qed.

(** ** Question and answer, end to end *)

Lemma step_settle_last (st st' : State) (waiting : list Pending) (p : Pending)
    (reply : Reply) (clk : Clock) :
  settle p reply clk st = Some st' ->
  step {| app := st; inflight := waiting ++ [p] |}
       (Settled (length waiting) reply clk)
  = Some ({| app := st'; inflight := waiting |}, []).
Proof.
  intros Hs. unfold step. cbn [app inflight].
  rewrite (list_lookup_middle waiting [] p (length waiting) eq_refl).
  cbn [mbind option_bind]. rewrite Hs. cbn [mbind option_bind].
  rewrite delete_middle, app_nil_r. reflexivity.
Qed.

Lemma click_send_is_submit (m : Machine) :
  send_blocked (app m) = false ->
  step m ClickSend
  = Some ({| app := fst (handleSubmit (app m));
             inflight := inflight m ++ map snd (snd (handleSubmit (app m))) |},
          map fst (snd (handleSubmit (app m)))).
Proof.
  intros Hgo. unfold step, handle, when.
  change (send_button_disabled (app m)) with (send_blocked (app m)).
  rewrite Hgo. cbn [negb mbind option_bind].
  destruct (handleSubmit (app m)). reflexivity.
Qed.

(** X10. In chat mode, clicking send on a sendable input and then
    receiving the response (an answer, an error response or a network
    failure) sends one request carrying the input as question and leaves
    the conversation with exactly two more messages, the question and
    then the reply, the input empty, [isLoading] down and nothing more in
    flight than before. *)
Theorem ask_round_trip (m : Machine) (res : Fetched AskData ErrorData)
    (clk : Clock) :
  inputMode (app m) = js "chat" ->
  send_blocked (app m) = false ->
  exists m' r,
    run m [ClickSend; Settled (length (inflight m)) (AskReply res) clk]
    = Some (m', [r])
    /\ url r = API_BASE ++ js "/qa/ask"
    /\ body r = JsonBody (JObj [("question", JStr (inputValue (app m)))])
    /\ messages (app m')
       = messages (app m)
         ++ [plain_message (js "user") (inputValue (app m)); ask_reply_message res]
    /\ role (ask_reply_message res) = js "assistant"
    /\ isLoading (app m') = false
    /\ inputValue (app m') = []
    /\ inflight m' = inflight m.
Proof.
  intros Hmode Hgo. cbn [run].
  rewrite (click_send_is_submit m Hgo).
  unfold handleSubmit. rewrite bool_decide_eq_true_2 by exact Hmode.
  unfold handleSend. rewrite Hgo. cbn [fst snd map mbind option_bind].
  rewrite (step_settle_last _ (handleSend_settled res _) _ AwaitAsk
             (AskReply res) clk eq_refl).
  cbn [mbind option_bind].
  eexists _, _. split; [reflexivity|].
  cbn [app inflight url body]. split; [reflexivity|]. split; [reflexivity|].
  split; [|split; [destruct res; reflexivity | repeat split]].
  unfold handleSend_settled. cbn [messages setMessages setIsLoading setInputValue].
  rewrite <- app_assoc. reflexivity.
Qed.

Lemma ask_round_trip_witness :
  exists m' r,
    run typed_machine
        [ClickSend;
         Settled (length (inflight typed_machine)) (AskReply Rejected) sample_clock]
    = Some (m', [r])
    /\ url r = API_BASE ++ js "/qa/ask"
    /\ body r = JsonBody (JObj [("question", JStr (inputValue (app typed_machine)))])
    /\ messages (app m')
       = messages (app typed_machine)
         ++ [plain_message (js "user") (inputValue (app typed_machine));
             ask_reply_message Rejected]
    /\ role (ask_reply_message (@Rejected AskData ErrorData)) = js "assistant"
    /\ isLoading (app m') = false
    /\ inputValue (app m') = []
    /\ inflight m' = inflight typed_machine.
Proof.
  apply (ask_round_trip typed_machine Rejected sample_clock); reflexivity.
Defined.

(** ** Visualization, end to end *)

(** The message the continuation of [handleGenerateImage] appends. *)
Lemma handleGenerateImage_settled_message (p : jsstring)
    (res : Fetched VisualizationData unit) (clk : Clock) (st : State) :
  exists msg,
    messages (handleGenerateImage_settled p res clk st) = messages st ++ [msg]
    /\ role msg = js "assistant" /\ sources msg = None
    /\ imageBase64 msg
       = match res with Fulfilled data => image_base64 data | _ => None end
    /\ (forall data description,
          res = Fulfilled data -> viz_description data = Some description ->
          description <> [] -> content msg = description)
    /\ (forall data,
          res = Fulfilled data ->
          viz_description data = None \/ viz_description data = Some [] ->
          content msg = js "已为「" ++ p ++ js "」生成知识图解").
Proof.
  destruct res as [|data|[]]; eexists; (split; [reflexivity|]);
    repeat (split; [reflexivity|]); split; try discriminate.
  - intros data' description [= <-] Hd Hne. simpl. rewrite Hd. simpl.
    destruct description; [contradiction | reflexivity].
  - intros data' [= <-] [Hd|Hd]; simpl; rewrite Hd; reflexivity.
Qed.

(** X11. In image mode, clicking send on a sendable input and then
    receiving the response sends one request to the generation endpoint
    whose prompt is the input as typed, whose style is the selected one
    and whose history is taken from the messages before the click; the
    conversation gets exactly two more messages, the user's (the input
    behind the palette prefix) and one assistant message, which carries
    the image when the request succeeded and none otherwise; the image
    history grows by one entry on success only, and one toast is
    raised. *)
Theorem visualization_round_trip (m : Machine)
    (res : Fetched VisualizationData unit) (clk : Clock) :
  inputMode (app m) = js "image" ->
  send_blocked (app m) = false ->
  exists m' r msg,
    run m [ClickSend; Settled (length (inflight m)) (VisualizationReply res) clk]
    = Some (m', [r])
    /\ url r = visualization_url
    /\ body r = JsonBody (visualization_body (inputValue (app m))
                            (imageStyle (app m))
                            (conversationHistory (messages (app m))))
    /\ messages (app m')
       = messages (app m)
         ++ [plain_message (js "user") (js "🎨 生成图解：" ++ inputValue (app m));
             msg]
    /\ role msg = js "assistant"
    /\ imageBase64 msg
       = match res with Fulfilled data => image_base64 data | _ => None end
    /\ length (imageHistory (app m'))
       = length (imageHistory (app m))
         + match res with Fulfilled _ => 1 | _ => 0 end
    /\ length (toasts (app m')) = S (length (toasts (app m)))
    /\ isLoading (app m') = false
    /\ inputValue (app m') = []
    /\ inflight m' = inflight m.
Proof.
  intros Hmode Hgo. cbn [run].
  rewrite (click_send_is_submit m Hgo).
  assert (Hchat : inputMode (app m) <> js "chat").
  { rewrite Hmode. vm_compute. discriminate. }
  unfold handleSubmit. rewrite bool_decide_eq_false_2 by exact Hchat.
  unfold handleGenerateImage. cbn [opt_or_else opt_truthy negb].
  change (negb (truthy (trim (inputValue (app m)))) || isLoading (app m))
    with (send_blocked (app m)).
  rewrite Hgo, bool_decide_eq_true_2 by exact Hmode.
  cbn [fst snd map mbind option_bind].
  rewrite (step_settle_last _ (handleGenerateImage_settled (inputValue (app m))
                                 res clk _) _
             (AwaitVisualization (inputValue (app m)))
             (VisualizationReply res) clk eq_refl).
  cbn [mbind option_bind].
  match goal with
  | |- context [handleGenerateImage_settled ?p res clk ?st] =>
    destruct (handleGenerateImage_settled_message p res clk st)
      as (msg & Hmsg & Hrole & _ & Himg & _)
  end.
  eexists _, _, msg. split; [reflexivity|].
  cbn [app inflight url body]. split; [reflexivity|]. split; [reflexivity|].
  split; [rewrite Hmsg; cbn [messages setMessages setIsLoading setInputValue];
          rewrite <- app_assoc; reflexivity|].
  split; [exact Hrole|]. split; [exact Himg|].
  destruct res as [|data|[]]; cbn; rewrite ?length_app; cbn;
    repeat split; lia.
Qed.

Lemma generate_prefix_head :
  generate_prefix = 26681%N :: js "据以下内容生成知识图解：".
Proof. vm_compute. reflexivity. Qed.

Lemma custom_prompt_not_blank (content : jsstring) :
  truthy (trim (custom_prompt_of content)) = true
  /\ truthy (custom_prompt_of content) = true.
Proof.
  unfold custom_prompt_of. rewrite generate_prefix_head. split; [|reflexivity].
  destruct (trim _) as [|c r] eqn:E; [|reflexivity].
  apply trim_blank in E. simpl in E. apply Forall_cons in E.
  destruct E as [E _]. vm_compute in E. discriminate E.
Qed.

(** X12. Generating a diagram from a reply is accepted whenever nothing
    is loading, whatever the reply contains (even an empty one): one
    request goes out whose prompt is the custom prompt, the user message
    shows that prompt (behind the palette prefix in image mode), and the
    text in the input box is left as it is. While something is loading
    the button does nothing. *)
Theorem generate_from_reply_needs_only_idle (content : jsstring) (st : State) :
  (isLoading st = true -> onGenerateFromContent content st = (st, []))
  /\ (isLoading st = false ->
      exists st' r,
        onGenerateFromContent content st
        = (st', [(r, AwaitVisualization (custom_prompt_of content))])
        /\ url r = visualization_url
        /\ body r = JsonBody (visualization_body (custom_prompt_of content)
                                (imageStyle st)
                                (conversationHistory (messages st)))
        /\ messages st'
           = messages st
             ++ [plain_message (js "user")
                   (if bool_decide (inputMode st = js "image")
                    then js "🎨 生成图解：" ++ custom_prompt_of content
                    else custom_prompt_of content)]
        /\ inputValue st' = inputValue st
        /\ isLoading st' = true).
Proof.
  destruct (custom_prompt_not_blank content) as [Htrim Hcp].
  unfold onGenerateFromContent, handleGenerateImage.
  cbn [opt_or_else opt_truthy]. unfold or_else. rewrite Hcp, Htrim.
  cbn [negb orb]. split; intros Hl; rewrite Hl.
  - reflexivity.
  - eexists _, _. repeat split.
Qed.

Lemma visualization_round_trip_witness :
  exists m' r msg,
    run image_machine
        [ClickSend;
         Settled (length (inflight image_machine)) (VisualizationReply (NotOk ()))
                 sample_clock]
    = Some (m', [r])
    /\ url r = visualization_url
    /\ body r = JsonBody (visualization_body (inputValue (app image_machine))
                            (imageStyle (app image_machine))
                            (conversationHistory (messages (app image_machine))))
    /\ messages (app m')
       = messages (app image_machine)
         ++ [plain_message (js "user")
               (js "🎨 生成图解：" ++ inputValue (app image_machine));
             msg]
    /\ role msg = js "assistant"
    /\ imageBase64 msg
       = match @NotOk VisualizationData unit () with
         | Fulfilled data => image_base64 data
         | _ => None
         end
    /\ length (imageHistory (app m'))
       = length (imageHistory (app image_machine))
         + match @NotOk VisualizationData unit () with
           | Fulfilled _ => 1
           | _ => 0
           end
    /\ length (toasts (app m')) = S (length (toasts (app image_machine)))
    /\ isLoading (app m') = false
    /\ inputValue (app m') = []
    /\ inflight m' = inflight image_machine.
Proof.
  apply (visualization_round_trip image_machine (NotOk ()) sample_clock);
    vm_compute; reflexivity.
Defined.

(** ** Recommendations, end to end *)

(** X13. With at least one document, clicking the recommend button (it is
    enabled only while no recommendation is loading) sends one POST to
    [/recommendations/chat] in chat mode and to
    [/recommendations/visualization] otherwise, with the ids of all
    documents in order and the whole conversation; when it settles the
    popup is open, loading is over, and the topics are those of the
    response, or none when the response has no topics, is not ok, or the
    request failed. The conversation is untouched. *)
Theorem recommendations_round_trip (m : Machine)
    (res : Fetched RecommendationData unit) (clk : Clock) :
  documents (app m) <> [] ->
  isLoadingRecommendations (app m) = false ->
  inputMode (app m) = js "chat" \/ inputMode (app m) = js "image" ->
  exists m' r,
    run m [ClickRecommend;
           Settled (length (inflight m)) (RecommendationsReply res) clk]
    = Some (m', [r])
    /\ url r = API_BASE ++ (if bool_decide (inputMode (app m) = js "chat")
                            then js "/recommendations/chat"
                            else js "/recommendations/visualization")
    /\ body r = JsonBody (JObj
         [("document_ids", JArr (map (fun d => JStr (id d)) (documents (app m))));
          ("conversation_history",
           JArr (map (fun msg => JObj [("role", JStr (role msg));
                                       ("content", JStr (content msg))])
                     (messages (app m))))])
    /\ recommendations (app m')
       = match res with
         | Fulfilled data => default [] (topics data)
         | _ => []
         end
    /\ showRecommendations (app m') = true
    /\ isLoadingRecommendations (app m') = false
    /\ messages (app m') = messages (app m)
    /\ toasts (app m') = toasts (app m)
    /\ inflight m' = inflight m.
Proof.
  intros Hdocs Hidle Hmode. cbn [run].
  destruct (step_cases m ClickRecommend) as [(k & reply & c & Habs) | ->];
    [discriminate Habs|].
  cbn [handle]. unfold when.
  assert (Hg : (bool_decide (inputMode (app m) = js "image")
                || bool_decide (inputMode (app m) = js "chat"))
               && negb (isLoadingRecommendations (app m)) = true).
  { rewrite Hidle, andb_true_r. apply orb_true_iff.
    destruct Hmode as [Hm|Hm]; [right | left]; apply bool_decide_eq_true_2;
      exact Hm. }
  rewrite Hg. unfold handleShowRecommendations.
  rewrite bool_decide_eq_false_2
    by (destruct (documents (app m)); [contradiction | discriminate]).
  cbn [fst snd map mbind option_bind].
  rewrite (step_settle_last _ (handleShowRecommendations_settled res _) _
             AwaitRecommendations (RecommendationsReply res) clk eq_refl).
  cbn [mbind option_bind].
  eexists _, _. split; [reflexivity|].
  cbn [app inflight url body]. split; [reflexivity|]. split; [reflexivity|].
  destruct res as [|data|[]]; repeat split.
Qed.

Lemma recommendations_round_trip_witness :
  exists m' r,
    run one_document_machine
        [ClickRecommend;
         Settled (length (inflight one_document_machine))
                 (RecommendationsReply (Fulfilled no_topics)) sample_clock]
    = Some (m', [r])
    /\ url r = API_BASE
               ++ (if bool_decide (inputMode (app one_document_machine) = js "chat")
                   then js "/recommendations/chat"
                   else js "/recommendations/visualization")
    /\ body r = JsonBody (JObj
         [("document_ids",
           JArr (map (fun d => JStr (id d)) (documents (app one_document_machine))));
          ("conversation_history",
           JArr (map (fun msg => JObj [("role", JStr (role msg));
                                       ("content", JStr (content msg))])
                     (messages (app one_document_machine))))])
    /\ recommendations (app m')
       = match @Fulfilled RecommendationData unit no_topics with
         | Fulfilled data => default [] (topics data)
         | _ => []
         end
    /\ showRecommendations (app m') = true
    /\ isLoadingRecommendations (app m') = false
    /\ messages (app m') = messages (app one_document_machine)
    /\ toasts (app m') = toasts (app one_document_machine)
    /\ inflight m' = inflight one_document_machine.
Proof.
  apply (recommendations_round_trip one_document_machine (Fulfilled no_topics)
           sample_clock).
  - discriminate.
  - reflexivity.
  - left. reflexivity.
Defined.

Lemma one_recommendation_in_flight_witness :
  pending_count is_recommendation (inflight (fst recommend_run)) <= 1
  /\ (isLoadingRecommendations (app (fst recommend_run)) = true
      <-> pending_count is_recommendation (inflight (fst recommend_run)) = 1).
Proof.
  apply (one_recommendation_in_flight None recommend_events
           (fst recommend_run) (snd recommend_run)).
  vm_compute. reflexivity.
Defined.

Example recommend_run_is_loading :
  isLoadingRecommendations (app (fst recommend_run)) = true
  /\ inflight (fst recommend_run) = [AwaitRecommendations].
Proof. vm_compute. split; reflexivity. Qed.

(** ** Documents and display names *)

Lemma filter_all {A} (P : A -> Prop) `{!forall x, Decision (P x)} (l : list A) :
  Forall P l -> filter P l = l.
Proof.
  induction 1 as [|x l Hx Hl IH]; [reflexivity|].
  rewrite filter_cons_True by exact Hx. rewrite IH. reflexivity.
Qed.

(** X14. Uploading a document whose id is new and then deleting it gives
    back the document list and the display names there were before: the
    upload appends the document and names it after the file, the delete
    removes both again. *)
Theorem upload_then_delete_restores (file : File) (doc : Document)
    (now1 now2 : Z) (st : State) :
  Forall (fun d => id d ≠ id doc) (documents st) ->
  displayNames st !! id doc = None ->
  documents (handleUpload_settled file (Fulfilled doc) now1 st)
  = documents st ++ [doc]
  /\ displayNames (handleUpload_settled file (Fulfilled doc) now1 st) !! id doc
     = Some (name file)
  /\ isUploading (handleUpload_settled file (Fulfilled doc) now1 st) = false
  /\ documents (handleDelete_settled (id doc) (Fulfilled ()) now2
                  (handleUpload_settled file (Fulfilled doc) now1 st))
     = documents st
  /\ displayNames (handleDelete_settled (id doc) (Fulfilled ()) now2
                     (handleUpload_settled file (Fulfilled doc) now1 st))
     = displayNames st.
Proof.
  intros Hfresh Hname. simpl.
  split; [reflexivity|]. split; [apply lookup_insert_eq|]. split; [reflexivity|].
  split.
  - rewrite filter_app, filter_all by exact Hfresh.
    rewrite filter_cons_False by (intros H; apply H; reflexivity).
    rewrite filter_nil. apply app_nil_r.
  - apply delete_insert_id. exact Hname.
Qed.

Lemma upload_then_delete_restores_witness :
  documents (handleUpload_settled {| name := js "b.txt"; payload := [] |}
               (Fulfilled doc_b) 1 (app one_document_machine))
  = documents (app one_document_machine) ++ [doc_b]
  /\ displayNames (handleUpload_settled {| name := js "b.txt"; payload := [] |}
                     (Fulfilled doc_b) 1 (app one_document_machine)) !! id doc_b
     = Some (name {| name := js "b.txt"; payload := [] |})
  /\ isUploading (handleUpload_settled {| name := js "b.txt"; payload := [] |}
                    (Fulfilled doc_b) 1 (app one_document_machine)) = false
  /\ documents (handleDelete_settled (id doc_b) (Fulfilled ()) 2
                  (handleUpload_settled {| name := js "b.txt"; payload := [] |}
                     (Fulfilled doc_b) 1 (app one_document_machine)))
     = documents (app one_document_machine)
  /\ displayNames (handleDelete_settled (id doc_b) (Fulfilled ()) 2
                     (handleUpload_settled {| name := js "b.txt"; payload := [] |}
                        (Fulfilled doc_b) 1 (app one_document_machine)))
     = displayNames (app one_document_machine).
Proof.
  apply (upload_then_delete_restores {| name := js "b.txt"; payload := [] |}
           doc_b 1 2 (app one_document_machine)).
  - apply (bool_decide_unpack _). vm_compute. exact I.
  - reflexivity.
Defined.

(** X15. An upload that fails, by a response that is not ok or by an
    exception, leaves the documents and the display names as they were,
    lowers [isUploading] and raises exactly one toast of type [error],
    whose text is the [detail] of the response when it has a non-empty
    one. *)
Theorem failed_upload_changes_nothing (file : File) (error : ErrorData)
    (now : Z) (st : State) :
  documents (handleUpload_settled file (NotOk error) now st) = documents st
  /\ displayNames (handleUpload_settled file (NotOk error) now st)
     = displayNames st
  /\ documents (handleUpload_settled file Rejected now st) = documents st
  /\ displayNames (handleUpload_settled file Rejected now st) = displayNames st
  /\ isUploading (handleUpload_settled file (NotOk error) now st) = false
  /\ isUploading (handleUpload_settled file Rejected now st) = false
  /\ toasts (handleUpload_settled file (NotOk error) now st)
     = toasts st ++ [{| toast_id := now;
                        toast_message :=
                          match detail error with
                          | Some (c :: d) => c :: d
                          | _ => js "上传失败"
                          end;
                        toast_type := js "error" |}]
  /\ toasts (handleUpload_settled file Rejected now st)
     = toasts st ++ [{| toast_id := now;
                        toast_message := js "上传失败，请检查网络连接";
                        toast_type := js "error" |}].
Proof.
  repeat (split; [reflexivity|]). split; [|reflexivity].
  simpl. destruct (detail error) as [[|c d]|]; reflexivity.
Qed.

(** X16. Saving a name in the rename editor stores the trimmed value: a
    value of whitespace only changes nothing at all (no rename, no
    toast), and otherwise the document's display name becomes the value
    without its leading and trailing whitespace, which is not empty, the
    other display names and the documents stay, and one toast is
    raised. *)
Theorem saved_name_is_trimmed (docId editValue : jsstring) (now : Z) (st : State) :
  (Forall (fun c => is_whitespace c = true) editValue ->
   saveEdit docId editValue now st = st)
  /\ (~ Forall (fun c => is_whitespace c = true) editValue ->
      displayNames (saveEdit docId editValue now st) !! docId
      = Some (trim editValue)
      /\ trim editValue <> []
      /\ (forall c, head (trim editValue) = Some c -> is_whitespace c = false)
      /\ (forall c, last (trim editValue) = Some c -> is_whitespace c = false)
      /\ (forall k, k <> docId ->
            displayNames (saveEdit docId editValue now st) !! k
            = displayNames st !! k)
      /\ documents (saveEdit docId editValue now st) = documents st
      /\ length (toasts (saveEdit docId editValue now st))
         = S (length (toasts st))).
Proof.
  unfold saveEdit. split.
  - intros Hb. apply trim_blank in Hb. rewrite Hb. reflexivity.
  - intros Hnb. rewrite <- trim_blank in Hnb.
    destruct (trim editValue) as [|c r] eqn:E; [contradiction|].
    rewrite <- E. cbn [truthy].
    assert (Ht : truthy (trim editValue) = true) by (rewrite E; reflexivity).
    rewrite Ht. simpl.
    split; [apply lookup_insert_eq|]. split; [rewrite E; discriminate|].
    split; [apply trim_head|]. split; [apply trim_last|].
    split; [intros k Hk; apply lookup_insert_ne; congruence|].
    split; [reflexivity|]. rewrite length_app. simpl. lia.
Qed.

(** The editor keys: Escape closes the editor and leaves the application
    state alone; Enter closes it and saves as the save button does; any
    other key changes neither. Whatever the key, the documents are never
    changed. *)
Lemma editor_keys (key docId : jsstring) (now : Z) (ed : Editor) (st : State) :
  (key = js "Escape" ->
   editKeyDown key docId now ed st
   = ({| editingId := None; editValue := editValue ed |}, st))
  /\ (key = js "Enter" ->
      editKeyDown key docId now ed st
      = ({| editingId := None; editValue := editValue ed |},
         saveEdit docId (editValue ed) now st))
  /\ (key <> js "Enter" -> key <> js "Escape" ->
      editKeyDown key docId now ed st = (ed, st))
  /\ documents (snd (editKeyDown key docId now ed st)) = documents st.
Proof.
  unfold editKeyDown, saveEdit_full. split; [|split; [|split]].
  - intros ->. rewrite bool_decide_eq_false_2 by (vm_compute; discriminate).
    rewrite bool_decide_eq_true_2 by reflexivity. reflexivity.
  - intros ->. rewrite bool_decide_eq_true_2 by reflexivity. reflexivity.
  - intros H1 H2. rewrite !bool_decide_eq_false_2 by assumption. reflexivity.
  - repeat case_bool_decide; try reflexivity.
    unfold saveEdit. cbn [snd]. destruct (truthy _); reflexivity.
Qed.

(** X17. Renaming through the editor: opening it on a document, typing a
    value that is not blank and pressing Enter closes the editor and
    makes the trimmed value the display name of that document and of no
    other; pressing Escape instead closes the editor and changes
    nothing, whatever was typed. *)
Theorem rename_through_editor (doc : Document) (value : jsstring) (now : Z)
    (st : State) :
  ~ Forall (fun c => is_whitespace c = true) value ->
  editingId (startEdit (displayNames st) doc) = Some (id doc)
  /\ editingId (fst (editKeyDown (js "Enter") (id doc) now
                       (changeEdit value (startEdit (displayNames st) doc)) st))
     = None
  /\ displayNames (snd (editKeyDown (js "Enter") (id doc) now
                          (changeEdit value (startEdit (displayNames st) doc)) st))
     = <[id doc := trim value]> (displayNames st)
  /\ editKeyDown (js "Escape") (id doc) now
       (changeEdit value (startEdit (displayNames st) doc)) st
     = ({| editingId := None; editValue := value |}, st).
Proof.
  intros Hnb.
  destruct (editor_keys (js "Enter") (id doc) now
              (changeEdit value (startEdit (displayNames st) doc)) st)
    as (_ & Henter & _).
  destruct (editor_keys (js "Escape") (id doc) now
              (changeEdit value (startEdit (displayNames st) doc)) st)
    as (Hesc & _).
  rewrite (Henter eq_refl), (Hesc eq_refl). cbn [fst snd editingId editValue changeEdit].
  split; [reflexivity|]. split; [reflexivity|]. split; [|reflexivity].
  unfold saveEdit. rewrite <- trim_blank in Hnb.
  destruct (trim value) as [|c r] eqn:E; [contradiction|]. reflexivity.
Qed.

Lemma rename_through_editor_witness :
  editingId (startEdit (displayNames two_documents) doc_a) = Some (id doc_a)
  /\ editingId (fst (editKeyDown (js "Enter") (id doc_a) 5
                       (changeEdit (js " Analysis ")
                          (startEdit (displayNames two_documents) doc_a))
                       two_documents))
     = None
  /\ displayNames (snd (editKeyDown (js "Enter") (id doc_a) 5
                          (changeEdit (js " Analysis ")
                             (startEdit (displayNames two_documents) doc_a))
                          two_documents))
     = <[id doc_a := trim (js " Analysis ")]> (displayNames two_documents)
  /\ editKeyDown (js "Escape") (id doc_a) 5
       (changeEdit (js " Analysis ")
          (startEdit (displayNames two_documents) doc_a)) two_documents
     = ({| editingId := None; editValue := js " Analysis " |}, two_documents).
Proof.
  apply (rename_through_editor doc_a (js " Analysis ") 5 two_documents).
  intros H. apply Forall_cons in H. destruct H as [_ H].
  apply Forall_cons in H. destruct H as [H _]. vm_compute in H. discriminate H.
Defined.

(** X18. While two accepted files are uploading, the response to the
    first lowers [isUploading], so the overlay goes away although the
    second upload is still in flight. *)
Theorem overlay_hides_after_first_upload (m : Machine) (f1 f2 : File)
    (res : Fetched Document ErrorData) (clk : Clock) :
  accepts f1 = true ->
  accepts f2 = true ->
  exists m1 m2,
    step m (ChooseFiles [f1; f2])
    = Some (m1, [upload_request f1; upload_request f2])
    /\ isUploading (app m1) = true
    /\ step m1 (Settled (length (inflight m)) (UploadReply res) clk)
       = Some (m2, [])
    /\ isUploading (app m2) = false
    /\ inflight m2 = inflight m ++ [AwaitUpload f2].
Proof.
  intros H1 H2.
  destruct (step_cases m (ChooseFiles [f1; f2])) as [(k & r & c & Habs) | Hui];
    [discriminate Habs|].
  rewrite Hui. cbn [handle mbind option_bind].
  destruct (uploadAll_one_request_per_accepted_file [f1; f2] (app m))
    as (Hreq & Hpend & Hst & _).
  rewrite !handleFiles_cons, H1, H2 in Hreq, Hpend, Hst. cbn [handleFiles] in *.
  destruct (uploadAll [f1; f2] (app m)) as [st1 issued] eqn:Hup.
  cbn [fst snd] in *. rewrite Hreq, Hpend, Hst. cbn [map].
  rewrite bool_decide_eq_false_2 by discriminate.
  eexists _, _. split; [reflexivity|]. split; [reflexivity|].
  unfold step. cbn [app inflight].
  rewrite (list_lookup_middle (inflight m) [AwaitUpload f2] (AwaitUpload f1)
             (length (inflight m)) eq_refl).
  cbn [mbind option_bind settle]. rewrite delete_middle.
  split; [reflexivity|]. split; [|reflexivity].
  destruct res; reflexivity.
Qed.

Lemma overlay_hides_after_first_upload_witness :
  exists m1 m2,
    step one_document_machine (ChooseFiles [pdf_file; txt_file])
    = Some (m1, [upload_request pdf_file; upload_request txt_file])
    /\ isUploading (app m1) = true
    /\ step m1 (Settled (length (inflight one_document_machine))
                        (UploadReply Rejected) sample_clock)
       = Some (m2, [])
    /\ isUploading (app m2) = false
    /\ inflight m2 = inflight one_document_machine ++ [AwaitUpload txt_file].
Proof.
  apply (overlay_hides_after_first_upload one_document_machine pdf_file txt_file
           Rejected sample_clock); reflexivity.
Defined.

(** ** Toasts *)

(** X19. Removing a toast removes every toast of that id and nothing
    else: the remaining toasts are the others, in order. Showing a toast
    and removing it again cancels out, and two toasts raised in the same
    millisecond (they share their id) disappear together. *)
Theorem removeToast_removes_that_id (tid : Z) (st : State) :
  Forall (fun t => toast_id t ≠ tid) (toasts (removeToast tid st))
  /\ toasts (removeToast tid st) = filter (fun t => toast_id t ≠ tid) (toasts st)
  /\ (forall message type,
        removeToast tid (showToast message type tid st) = removeToast tid st)
  /\ (forall message1 type1 message2 type2,
        removeToast tid
          (showToast message2 type2 tid (showToast message1 type1 tid st))
        = removeToast tid st)
  /\ (forall message type other,
        other <> tid ->
        toasts (removeToast tid (showToast message type other st))
        = toasts (removeToast tid st)
          ++ [{| toast_id := other; toast_message := message;
                 toast_type := type |}]).
Proof.
  assert (Hone : forall message type st1,
            removeToast tid (showToast message type tid st1) = removeToast tid st1).
  { intros message type st1. unfold removeToast, showToast, setToasts.
    cbn. f_equal. rewrite filter_app.
    rewrite filter_cons_False by (intros H; apply H; reflexivity).
    rewrite filter_nil. apply app_nil_r. }
  split; [|split; [reflexivity|split; [intros; apply Hone|split]]].
  - apply Forall_forall. intros t Ht. simpl in Ht.
    apply list_elem_of_filter in Ht. tauto.
  - intros. rewrite !Hone. reflexivity.
  - intros message type other Hne. simpl. rewrite filter_app.
    rewrite filter_cons_True by exact Hne. reflexivity.
Qed.

Example same_millisecond_toasts_go_together :
  map toast_message (toasts (removeToast 7 three_toasts)) = [js "c"].
Proof. vm_compute. reflexivity. Qed.

(** ** The input box and the preview *)

(** X20. The height written to the input box is always between 52 and
    200, it is the scroll height itself when that lies in the range, and
    the effect is stable: run again on the same content after the write,
    it writes nothing. *)
Theorem resize_bounded_and_stable (scrollHeight : Z) (parsed : option Z) (h : Z) :
  resize scrollHeight parsed = Some h ->
  (52 <= h <= 200)%Z
  /\ h = newHeight scrollHeight
  /\ ((52 <= scrollHeight <= 200)%Z -> h = scrollHeight)
  /\ resize scrollHeight (Some h) = None.
Proof.
  unfold resize. case_bool_decide as Hne; [|discriminate]. intros [= <-].
  unfold newHeight in *.
  split; [lia|]. split; [reflexivity|]. split; [lia|].
  rewrite bool_decide_eq_false_2; [reflexivity|].
  intros H. apply H. unfold currentHeight.
  destruct (Z.eqb_spec (Z.min (Z.max scrollHeight 52) 200) 0); [lia | reflexivity].
Qed.

Lemma resize_bounded_and_stable_witness :
  (52 <= 200 <= 200)%Z
  /\ 200%Z = newHeight 731
  /\ ((52 <= 731 <= 200)%Z -> 200%Z = 731%Z)
  /\ resize 731 (Some 200%Z) = None.
Proof. apply (resize_bounded_and_stable 731 (Some 52%Z) 200). reflexivity. Defined.


Example download_name_of_a_date :
  download_name (js "2025/1/2") = js "知识图解_2025-1-2.png".
Proof. vm_compute. reflexivity. Qed.

(** ** Choosing a recommendation *)

(** X22. Clicking a recommended topic only fills the input with the
    topic's prompt and closes the popup: it sends nothing and leaves the
    conversation as it is; the send button is then enabled unless the
    prompt is blank or a generation is loading. *)
Theorem choosing_a_topic_only_fills_the_input (i : nat) (st st' : State)
    (issued : Issued) :
  handle (ClickRecommendation i) st = Some (st', issued) ->
  exists topic,
    recommendations st !! i = Some topic
    /\ issued = []
    /\ inputValue st' = prompt topic
    /\ showRecommendations st' = false
    /\ messages st' = messages st
    /\ isLoading st' = isLoading st
    /\ (send_button_disabled st' = false
        <-> ~ Forall (fun c => is_whitespace c = true) (prompt topic)
            /\ isLoading st = false).
Proof.
  cbn [handle]. unfold when.
  destruct (recommendations st !! i) as [topic|]; cbn [mbind option_bind];
    [|discriminate].
  destruct (_ && _); [|discriminate]. intros [= <- <-].
  exists topic. do 6 (split; [reflexivity|]).
  unfold send_button_disabled, handleSelectRecommendation.
  cbn [inputValue isLoading setInputValue setShowRecommendations to].
  rewrite orb_false_iff, negb_false_iff, <- trim_blank.
  unfold to. destruct (trim (prompt topic)); simpl; intuition congruence.
Qed.

Lemma choosing_a_topic_only_fills_the_input_witness :
  exists topic,
    recommendations (app popup_machine) !! 0 = Some topic
    /\ @nil (Request * Pending) = []
    /\ inputValue (fst (default (app popup_machine, [])
                          (handle (ClickRecommendation 0) (app popup_machine))))
       = prompt topic
    /\ showRecommendations
         (fst (default (app popup_machine, [])
                 (handle (ClickRecommendation 0) (app popup_machine)))) = false
    /\ messages (fst (default (app popup_machine, [])
                        (handle (ClickRecommendation 0) (app popup_machine))))
       = messages (app popup_machine)
    /\ isLoading (fst (default (app popup_machine, [])
                         (handle (ClickRecommendation 0) (app popup_machine))))
       = isLoading (app popup_machine)
    /\ (send_button_disabled
          (fst (default (app popup_machine, [])
                  (handle (ClickRecommendation 0) (app popup_machine)))) = false
        <-> ~ Forall (fun c => is_whitespace c = true) (prompt topic)
            /\ isLoading (app popup_machine) = false).
Proof.
  apply (choosing_a_topic_only_fills_the_input 0 (app popup_machine)).
  reflexivity.
Defined.

(** ** The keyboard *)

Lemma blank_or_loading_guard_helper (st : State) :
  trim (inputValue st) = [] \/ isLoading st = true ->
  handleSubmit st = (st, []).
Proof.
  intros H. apply send_blocked_iff in H. unfold handleSubmit.
  case_bool_decide.
  - unfold handleSend. rewrite H. reflexivity.
  - unfold handleGenerateImage. cbn [opt_or_else].
    unfold send_blocked in H. rewrite H. reflexivity.
Qed.

(** X23. Pressing Enter without Shift does what the send button does when
    the button is enabled, and nothing when it is disabled; Shift+Enter
    and every other key never send and never change the state. *)
Theorem enter_is_the_send_button (m : Machine) (key : jsstring) (shiftKey : bool) :
  (send_button_disabled (app m) = false ->
   step m (KeyPress (js "Enter") false) = step m ClickSend)
  /\ (send_button_disabled (app m) = true ->
      step m (KeyPress (js "Enter") false)
      = Some ({| app := app m; inflight := inflight m ++ [] |}, [])
      /\ step m ClickSend = None)
  /\ (key <> js "Enter" \/ shiftKey = true ->
      step m (KeyPress key shiftKey)
      = Some ({| app := app m; inflight := inflight m ++ [] |}, [])).
Proof.
  split; [|split].
  - intros Hen. rewrite (click_send_is_submit m Hen).
    unfold step, handle, handleKeyPress.
    rewrite bool_decide_eq_true_2 by reflexivity. cbn [negb andb mbind option_bind].
    destruct (handleSubmit (app m)). reflexivity.
  - intros Hdis.
    assert (Hor : trim (inputValue (app m)) = [] \/ isLoading (app m) = true).
    { apply send_button_disabled_iff. exact Hdis. }
    pose proof (blank_or_loading_guard_helper (app m) Hor) as Hsub.
    split.
    + unfold step, handle, handleKeyPress.
      rewrite bool_decide_eq_true_2 by reflexivity.
      cbn [negb andb mbind option_bind]. rewrite Hsub. reflexivity.
    + unfold step, handle, when. rewrite Hdis. reflexivity.
  - intros Hother. unfold step, handle, handleKeyPress.
    destruct Hother as [Hk| ->].
    + rewrite bool_decide_eq_false_2 by exact Hk. reflexivity.
    + rewrite andb_false_r. reflexivity.
Qed.

(** ** Closed sets and the back end *)

Ltac listed := apply (bool_decide_unpack _); vm_compute; exact I.

Lemma elem_of_two {A} (x a b : A) : x ∈ [a; b] -> x = a \/ x = b.
Proof.
  intros H. apply elem_of_cons in H as [H|H]; [left; exact H|].
  apply elem_of_cons in H as [H|H]; [right; exact H|].
  apply elem_of_nil in H. contradiction.
Qed.

Lemma elem_of_three {A} (x a b c : A) : x ∈ [a; b; c] -> x = a \/ x = b \/ x = c.
Proof.
  intros H. apply elem_of_cons in H as [H|H]; [left; exact H|].
  right. apply elem_of_two. exact H.
Qed.

Lemma to_backend_json (path : jsstring) (j : json) :
  to_backend {| url := API_BASE ++ path; method := "POST";
                headers := json_headers; body := JsonBody j |}.
Proof.
  split; [apply prefix_app_r; reflexivity|]. split; [listed|].
  simpl. split; eauto.
Qed.

Lemma to_backend_plain (path : jsstring) (verb : string) (b : Body) :
  verb ∈ ["GET"; "POST"; "DELETE"] ->
  (forall j, b <> JsonBody j) ->
  to_backend {| url := API_BASE ++ path; method := verb; headers := [];
                body := b |}.
Proof.
  intros Hv Hb. split; [apply prefix_app_r; reflexivity|]. split; [exact Hv|].
  simpl. split; [discriminate|]. intros [j Hj]. destruct (Hb j Hj).
Qed.

Lemma upload_request_to_backend (file : File) : to_backend (upload_request file).
Proof. apply to_backend_plain; [listed | discriminate]. Qed.

Definition orderly (st : State) (out : State * Issued) : Prop :=
  ui_invariant st ->
  ui_invariant (fst out) /\ Forall (fun rp => to_backend (fst rp)) (snd out).

Lemma orderly_silent (st st' : State) :
  inputMode st' = inputMode st -> toasts st' = toasts st -> orderly st (st', []).
Proof.
  intros Hm Ht [H1 H2]. split; [|constructor].
  split; simpl; [rewrite Hm | rewrite Ht]; assumption.
Qed.

Lemma handleSubmit_orderly (st : State) : orderly st (handleSubmit st).
Proof.
  unfold handleSubmit, handleSend, handleGenerateImage. split_ifs;
    try (apply orderly_silent; reflexivity);
    intros Hinv; (split; [exact Hinv|]); apply Forall_singleton;
    apply to_backend_json.
Qed.

Lemma handle_orderly (e : Event) (st : State) (out : State * Issued) :
  handle e st = Some out -> orderly st out.
Proof.
  destruct e; cbn [handle]; unfold when; intros H;
    repeat match type of H with
           | (if ?c then _ else _) = Some _ => destruct c; [|discriminate H]
           | (?x ≫= _) = Some _ => destruct x; cbn [mbind option_bind] in H;
                                    [|discriminate H]
           end;
    try discriminate H; injection H as <-;
    try (apply orderly_silent; reflexivity).
  - intros [_ Ht]. split; [|constructor]. split; [listed | exact Ht].
  - intros [_ Ht]. split; [|constructor]. split; [listed | exact Ht].
  - unfold handleKeyPress. destruct (_ && _).
    + apply handleSubmit_orderly.
    + apply orderly_silent; reflexivity.
  - apply handleSubmit_orderly.
  - unfold handleShowRecommendations. split_ifs;
      try (apply orderly_silent; reflexivity);
      intros Hinv; (split; [exact Hinv|]); apply Forall_singleton;
      apply to_backend_json.
  - unfold onGenerateFromContent, handleGenerateImage. split_ifs;
      try (apply orderly_silent; reflexivity);
      intros Hinv; (split; [exact Hinv|]); apply Forall_singleton;
      apply to_backend_json.
  - unfold uploadAll. rewrite uploads_fold. cbn [app]. intros Hinv. split.
    + destruct (handleFiles files); exact Hinv.
    + apply Forall_fmap, Forall_forall. intros f _. apply upload_request_to_backend.
  - intros Hinv. split; [exact Hinv|]. apply Forall_singleton.
    apply to_backend_plain; [listed | discriminate].
  - unfold saveEdit, handleRename. destruct (truthy _);
      [|apply orderly_silent; reflexivity].
    intros [Hm Ht]. split; [|constructor]. split; [exact Hm|].
    simpl. apply Forall_app. split; [exact Ht|].
    apply Forall_singleton. listed.
  - intros [Hm Ht]. split; [|constructor]. split; [exact Hm|].
    simpl. apply Forall_forall. intros t Hin.
    apply list_elem_of_filter in Hin. destruct Hin as [_ Hin].
    exact (proj1 (Forall_forall _ _) Ht t Hin).
Qed.

Lemma settle_ui_invariant (p : Pending) (reply : Reply) (clk : Clock)
    (st st' : State) :
  settle p reply clk st = Some st' -> ui_invariant st -> ui_invariant st'.
Proof.
  destruct p, reply; simpl; try discriminate; intros [= <-] [Hm Ht];
    destruct res; (split; [exact Hm|]); simpl; try exact Ht;
    apply Forall_app; (split; [exact Ht|]); apply Forall_singleton; listed.
Qed.

Lemma step_orderly (m m' : Machine) (e : Event) (sent : list Request) :
  step m e = Some (m', sent) ->
  ui_invariant (app m) ->
  ui_invariant (app m') /\ Forall to_backend sent.
Proof.
  intros Hstep Hinv.
  destruct (step_cases m e) as [(k & reply & clk & ->) | Hui].
  - unfold step in Hstep.
    destruct (inflight m !! k) as [p|]; simpl in Hstep; [|discriminate].
    destruct (settle p reply clk (app m)) as [st'|] eqn:Hs; simpl in Hstep;
      [|discriminate].
    injection Hstep as <- <-. simpl.
    split; [exact (settle_ui_invariant _ _ _ _ _ Hs Hinv) | constructor].
  - rewrite Hui in Hstep.
    destruct (handle e (app m)) as [[st' issued]|] eqn:Hh; simpl in Hstep;
      [|discriminate].
    injection Hstep as <- <-.
    destruct (handle_orderly _ _ _ Hh Hinv) as [Hs Hr].
    split; [exact Hs|]. apply Forall_fmap. exact Hr.
Qed.

Lemma run_orderly (events : list Event) (m m' : Machine) (sent : list Request) :
  run m events = Some (m', sent) ->
  ui_invariant (app m) ->
  ui_invariant (app m') /\ Forall to_backend sent.
Proof.
  revert m m' sent. induction events as [|e rest IH]; intros m m' sent; simpl.
  - intros [= <- <-] Hinv. split; [exact Hinv | constructor].
  - destruct (step m e) as [[m1 sent1]|] eqn:Hstep; simpl; [|discriminate].
    destruct (run m1 rest) as [[m2 sent2]|] eqn:Hrun; simpl; [|discriminate].
    intros [= <- <-] Hinv.
    destruct (step_orderly _ _ _ _ Hstep Hinv) as [Hinv1 Hsent1].
    destruct (IH _ _ _ Hrun Hinv1) as [Hinv2 Hsent2].
    split; [exact Hinv2 | apply Forall_app; split; assumption].
Qed.

Lemma session_orderly (savedNames : option (gmap jsstring jsstring))
    (events : list Event) (m : Machine) (sent : list Request) :
  session savedNames events = Some (m, sent) ->
  ui_invariant (app m) /\ Forall to_backend sent.
Proof.
  unfold session. destruct (mount savedNames) as [m0 sent0] eqn:Hm.
  destruct (run m0 events) as [[m1 sent1]|] eqn:Hrun; simpl; [|discriminate].
  intros [= <- <-].
  assert (H0 : ui_invariant (app m0) /\ Forall to_backend sent0).
  { unfold mount in Hm. injection Hm as <- <-. split.
    - destruct savedNames; (split; [listed | constructor]).
    - apply Forall_singleton. apply to_backend_plain; [listed | discriminate]. }
  destruct H0 as [Hinv0 Hsent0].
  destruct (run_orderly _ _ _ _ Hrun Hinv0) as [Hinv1 Hsent1].
  split; [exact Hinv1 | apply Forall_app; split; assumption].
Qed.

(** X24. In every session the input mode is [chat] or [image] and every
    toast is of type [success] or [error]. *)
Theorem modes_and_toast_types_closed
    (savedNames : option (gmap jsstring jsstring)) (events : list Event)
    (m : Machine) (sent : list Request) :
  session savedNames events = Some (m, sent) ->
  (inputMode (app m) = js "chat" \/ inputMode (app m) = js "image")
  /\ (forall t, t ∈ toasts (app m) ->
        toast_type t = js "success" \/ toast_type t = js "error").
Proof.
  intros Hs. destruct (session_orderly _ _ _ _ Hs) as [[Hm Ht] _]. split.
  - apply elem_of_two. exact Hm.
  - intros t Hin. apply elem_of_two.
    exact (proj1 (Forall_forall _ _) Ht t Hin).
Qed.

(** X25. Every request of every session goes to the back end at
    [API_BASE], by GET, POST or DELETE, and declares a JSON content type
    exactly when its body is JSON. *)
Theorem requests_only_to_backend
    (savedNames : option (gmap jsstring jsstring)) (events : list Event)
    (m : Machine) (sent : list Request) :
  session savedNames events = Some (m, sent) ->
  forall r, r ∈ sent ->
    API_BASE `prefix_of` url r
    /\ (method r = "GET" \/ method r = "POST" \/ method r = "DELETE")
    /\ (headers r = json_headers <-> exists j, body r = JsonBody j).
Proof.
  intros Hs r Hin. destruct (session_orderly _ _ _ _ Hs) as [_ Hsent].
  destruct (proj1 (Forall_forall _ _) Hsent r Hin) as (Hp & Hm & Hh).
  split; [exact Hp|]. split; [apply elem_of_three; exact Hm | exact Hh].
Qed.

Lemma modes_and_toast_types_closed_witness :
  (inputMode (app (fst delete_run)) = js "chat"
   \/ inputMode (app (fst delete_run)) = js "image")
  /\ (forall t, t ∈ toasts (app (fst delete_run)) ->
        toast_type t = js "success" \/ toast_type t = js "error").
Proof.
  apply (modes_and_toast_types_closed None delete_events
           (fst delete_run) (snd delete_run)).
  vm_compute. reflexivity.
Defined.

Lemma requests_only_to_backend_witness :
  Forall (fun r =>
            API_BASE `prefix_of` url r
            /\ (method r = "GET" \/ method r = "POST" \/ method r = "DELETE")
            /\ (headers r = json_headers <-> exists j, body r = JsonBody j))
         (snd delete_run).
Proof.
  apply Forall_forall.
  apply (requests_only_to_backend None delete_events
           (fst delete_run) (snd delete_run)).
  vm_compute. reflexivity.
Defined.

Example delete_run_summary :
  map method (snd delete_run) = ["GET"; "DELETE"]
  /\ map toast_message (toasts (app (fst delete_run))) = [js "删除失败"]
  /\ documents (app (fst delete_run)) = [doc_a].
Proof. vm_compute. repeat split. Qed.

(** ** The badge is a whole number *)

(** X26. For a score that is a number, the badge is a whole number of at
    most 100 (or minus infinity, for a score of minus infinity or a
    product that overflows downwards): it is never a fraction and never
    plus infinity. *)
Theorem badge_is_whole_number (fl : Q -> jsnum) (source : Source) :
  relevance_score source <> NaN ->
  (forall q, fl q <> NaN) ->
  badge fl source = NegInf
  \/ exists z : Z, (z <= 100)%Z /\ badge fl source = Finite (inject_Z z).
Proof.
  intros Hscore Hfl. unfold badge.
  assert (Hmin : forall x, x <> NaN ->
            Math_min hundred (Math_round x) = NegInf
            \/ exists z : Z, (z <= 100)%Z
                 /\ Math_min hundred (Math_round x) = Finite (inject_Z z)).
  { intros [q| | |] Hx; [| | |contradiction].
    - right. unfold Math_round, Math_min, hundred.
      destruct (Qle_bool 100 (inject_Z (Qfloor (q + (1 # 2))))) eqn:E.
      + exists 100%Z. split; [lia | reflexivity].
      + exists (Qfloor (q + (1 # 2))). split; [|reflexivity].
        destruct (Z.le_gt_cases 100 (Qfloor (q + (1 # 2)))) as [Hle|Hgt]; [|lia].
        exfalso. rewrite Zle_Qle in Hle. apply Qle_bool_iff in Hle.
        change (inject_Z 100) with 100%Q in Hle. congruence.
    - right. exists 100%Z. split; [lia | reflexivity].
    - left. reflexivity. }
  apply Hmin.
  destruct (relevance_score source) as [p| | |]; simpl;
    [apply Hfl | discriminate | discriminate | contradiction].
Qed.

Lemma badge_is_whole_number_witness :
  badge Finite over_scored = NegInf
  \/ exists z : Z, (z <= 100)%Z /\ badge Finite over_scored = Finite (inject_Z z).
Proof.
  apply (badge_is_whole_number Finite over_scored); discriminate.
Defined.
